(** * client.js: the WebRTC signalling client, as an event-driven state machine

    A shallow embedding of [src/client.js].  The module-level variables of
    the script ([localStream], [isVideoEnabled], [isAudioEnabled],
    [peerConnection]) and the DOM elements it writes form the program state.
    Everything the script only talks to (the socket, the RTCPeerConnection
    objects, the promises returned by the browser, the console) is kept as a
    record of what the script did to it: the messages emitted, the calls
    received by each connection object, the reactions attached to each
    promise.

    Every handler of the script runs to completion; the browser decides when
    a promise settles and when a connection object fires an event.  Both are
    events of the machine, next to the socket messages and the button
    clicks.

    What lies behind the browser's interfaces is not modelled: a call on a
    connection object is recorded, its result is whatever the browser later
    settles its promise with, and no call raises an exception on the
    spot.  The page (index.html) is not part of the sources; its initial
    contents are a parameter of [page_load]. *)

From stdpp Require Import base option list strings.

Open Scope string_scope.
Open Scope list_scope.

(** ** Values exchanged with the browser and the relay *)

(** A session description object [{ type, sdp }]. *)
Record Sdp := { sdp_type : string; sdp_text : string }.

(** An ICE candidate descriptor; opaque to the script. *)
Definition Candidate := string.

(** What a rejected promise carries: the script reads [name] and [message]. *)
Record JsError := { err_name : string; err_message : string }.

(** A media track.  The script writes [enabled] and calls [stop()]. *)
Record MediaStreamTrack := { kind : string; enabled : bool; stopped : bool }.

(** Tracks are shared objects (the stream, the video element and the
    connection all point at the same track), so they live in a store and are
    named by their index. *)
Definition TrackRef := nat.

(** A stream is never mutated by the script; it is a value naming its
    tracks.  The tracks of a remote stream are never dereferenced. *)
Record MediaStream := { stream_id : string; stream_tracks : list TrackRef }.

(** The calls the script makes on an RTCPeerConnection. *)
Inductive PcCall :=
| CreateOffer (offerToReceiveAudio offerToReceiveVideo : bool)
| CreateAnswer (offerToReceiveVideo offerToReceiveAudio : bool)
| SetLocalDescription (sdp : Sdp)
| SetRemoteDescription (sdp : Sdp)
| AddIceCandidate (candidate : Candidate)
| AddTrack (track : TrackRef) (stream : MediaStream)
| Close.

(** An RTCPeerConnection as the script sees it: the calls it received
    (oldest first), the one attribute the script reads, and which of the
    three [on...] properties [init] has assigned.  Each property is only
    ever assigned one function, so a flag is enough. *)
Record RTCPeerConnection := {
  pc_calls : list PcCall;
  iceConnectionState : string;
  onicecandidate : bool;
  oniceconnectionstatechange : bool;
  ontrack : bool
}.

(** [new RTCPeerConnection(pc_config)] *)
Definition new_RTCPeerConnection : RTCPeerConnection :=
  {| pc_calls := []; iceConnectionState := "new";
     onicecandidate := false; oniceconnectionstatechange := false;
     ontrack := false |}.

(** [socket.emit(name, payload)] *)
Inductive Msg :=
| MJoin (room name : string)
| MOffer (sdp : Sdp)
| MAnswer (sdp : Sdp)
| MCandidate (candidate : Candidate).

(** ** Promises *)

(** The reactions the script attaches to a promise it obtains. *)
Inductive Reaction :=
| OfferChain          (* createOffer(..).then(sdp => ..).catch(..) *)
| AnswerChainRemote   (* setRemoteDescription(sdp).then(..).then(..).catch(..) *)
| AnswerChainCreated  (* the createAnswer(..) promise returned inside that chain *)
| CandidateChain      (* addIceCandidate(..).then(..).catch(..) *)
| InitAwait           (* await getUserMedia(..) inside init's try *)
| Unobserved.         (* the promise is dropped: nothing is attached *)

(** Where a promise comes from: a method of the connection, or
    [navigator.mediaDevices.getUserMedia]. *)
Inductive Origin :=
| ByCall (c : PcCall)
| ByGetUserMedia.

Record Promise := {
  origin : Origin;
  attached : Reaction;
  settled : bool
}.

(** What the browser settles a promise with. *)
Inductive Value :=
| VUndefined
| VDescription (sdp : Sdp)
| VStream (id : string) (fresh_tracks : list MediaStreamTrack).

Inductive Outcome :=
| Fulfilled (v : Value)
| Rejected (e : JsError).

(** ** The page *)

(** A toggle button: [disabled], the [muted] class, and the [display] style
    of its two icons. *)
Record ToggleBtn := {
  tb_disabled : bool;
  tb_muted : bool;
  icon_on_display : string;
  icon_off_display : string
}.

Record Dom := {
  localVideo_srcObject : option MediaStream;
  remoteVideo_srcObject : option MediaStream;
  localPlaceholder_hidden : bool;
  remotePlaceholder_hidden : bool;
  joinBtn_disabled : bool;
  leaveBtn_disabled : bool;
  toggleVideoBtn : ToggleBtn;
  toggleAudioBtn : ToggleBtn;
  connectionStatus_className : string;
  statusText_textContent : string;
  errorMsg_textContent : string
}.

(** ** The state of the machine *)

(** What the script does to the outside, one action at a time: a call on
    connection object number [pc], or a message sent on the socket. *)
Inductive Action :=
| Called (pc : nat) (c : PcCall)
| Sent (m : Msg).

Record State := {
  (* the script's variables *)
  localStream : option MediaStream;
  isVideoEnabled : bool;
  isAudioEnabled : bool;
  peerConnection : RTCPeerConnection;
  dom : Dom;
  (* the connection objects [peerConnection] no longer points at, oldest
     first; the browser may still fire their events *)
  replaced : list RTCPeerConnection;
  (* the track store *)
  tracks : list MediaStreamTrack;
  (* every promise the script obtained, by creation order *)
  promises : list Promise;
  (* socket.emit, oldest first *)
  emitted : list Msg;
  (* console.log / console.error, oldest first (first argument only) *)
  console : list string;
  (* Math.random().toString(36).substr(2, 5): the successive draws *)
  random_source : nat -> string;
  random_drawn : nat;
  (* the calls on connection objects and the messages sent, in the order
     in which the script made them *)
  journal : list Action
}.

(** The connection object the variable [peerConnection] points at is the
    one created after all the replaced ones. *)
Definition current_pc_id (s : State) : nat := length (replaced s).

(** *** Field updates *)

Definition set_localStream v s :=
  Build_State v (isVideoEnabled s) (isAudioEnabled s) (peerConnection s)
    (dom s) (replaced s) (tracks s) (promises s) (emitted s) (console s)
    (random_source s) (random_drawn s) (journal s).
Definition set_isVideoEnabled v s :=
  Build_State (localStream s) v (isAudioEnabled s) (peerConnection s)
    (dom s) (replaced s) (tracks s) (promises s) (emitted s) (console s)
    (random_source s) (random_drawn s) (journal s).
Definition set_isAudioEnabled v s :=
  Build_State (localStream s) (isVideoEnabled s) v (peerConnection s)
    (dom s) (replaced s) (tracks s) (promises s) (emitted s) (console s)
    (random_source s) (random_drawn s) (journal s).
Definition set_peerConnection v s :=
  Build_State (localStream s) (isVideoEnabled s) (isAudioEnabled s) v
    (dom s) (replaced s) (tracks s) (promises s) (emitted s) (console s)
    (random_source s) (random_drawn s) (journal s).
Definition set_dom v s :=
  Build_State (localStream s) (isVideoEnabled s) (isAudioEnabled s)
    (peerConnection s) v (replaced s) (tracks s) (promises s) (emitted s)
    (console s) (random_source s) (random_drawn s) (journal s).
Definition set_replaced v s :=
  Build_State (localStream s) (isVideoEnabled s) (isAudioEnabled s)
    (peerConnection s) (dom s) v (tracks s) (promises s) (emitted s)
    (console s) (random_source s) (random_drawn s) (journal s).
Definition set_tracks v s :=
  Build_State (localStream s) (isVideoEnabled s) (isAudioEnabled s)
    (peerConnection s) (dom s) (replaced s) v (promises s) (emitted s)
    (console s) (random_source s) (random_drawn s) (journal s).
Definition set_promises v s :=
  Build_State (localStream s) (isVideoEnabled s) (isAudioEnabled s)
    (peerConnection s) (dom s) (replaced s) (tracks s) v (emitted s)
    (console s) (random_source s) (random_drawn s) (journal s).
Definition set_emitted v s :=
  Build_State (localStream s) (isVideoEnabled s) (isAudioEnabled s)
    (peerConnection s) (dom s) (replaced s) (tracks s) (promises s) v
    (console s) (random_source s) (random_drawn s) (journal s).
Definition set_console v s :=
  Build_State (localStream s) (isVideoEnabled s) (isAudioEnabled s)
    (peerConnection s) (dom s) (replaced s) (tracks s) (promises s)
    (emitted s) v (random_source s) (random_drawn s) (journal s).
Definition set_random_drawn v s :=
  Build_State (localStream s) (isVideoEnabled s) (isAudioEnabled s)
    (peerConnection s) (dom s) (replaced s) (tracks s) (promises s)
    (emitted s) (console s) (random_source s) v (journal s).
Definition set_journal v s :=
  Build_State (localStream s) (isVideoEnabled s) (isAudioEnabled s)
    (peerConnection s) (dom s) (replaced s) (tracks s) (promises s)
    (emitted s) (console s) (random_source s) (random_drawn s) v.

Definition set_localVideo_srcObject v d :=
  Build_Dom v (remoteVideo_srcObject d) (localPlaceholder_hidden d)
    (remotePlaceholder_hidden d) (joinBtn_disabled d) (leaveBtn_disabled d)
    (toggleVideoBtn d) (toggleAudioBtn d) (connectionStatus_className d)
    (statusText_textContent d) (errorMsg_textContent d).
Definition set_remoteVideo_srcObject v d :=
  Build_Dom (localVideo_srcObject d) v (localPlaceholder_hidden d)
    (remotePlaceholder_hidden d) (joinBtn_disabled d) (leaveBtn_disabled d)
    (toggleVideoBtn d) (toggleAudioBtn d) (connectionStatus_className d)
    (statusText_textContent d) (errorMsg_textContent d).
Definition set_localPlaceholder_hidden v d :=
  Build_Dom (localVideo_srcObject d) (remoteVideo_srcObject d) v
    (remotePlaceholder_hidden d) (joinBtn_disabled d) (leaveBtn_disabled d)
    (toggleVideoBtn d) (toggleAudioBtn d) (connectionStatus_className d)
    (statusText_textContent d) (errorMsg_textContent d).
Definition set_remotePlaceholder_hidden v d :=
  Build_Dom (localVideo_srcObject d) (remoteVideo_srcObject d)
    (localPlaceholder_hidden d) v (joinBtn_disabled d) (leaveBtn_disabled d)
    (toggleVideoBtn d) (toggleAudioBtn d) (connectionStatus_className d)
    (statusText_textContent d) (errorMsg_textContent d).
Definition set_joinBtn_disabled v d :=
  Build_Dom (localVideo_srcObject d) (remoteVideo_srcObject d)
    (localPlaceholder_hidden d) (remotePlaceholder_hidden d) v
    (leaveBtn_disabled d) (toggleVideoBtn d) (toggleAudioBtn d)
    (connectionStatus_className d) (statusText_textContent d)
    (errorMsg_textContent d).
Definition set_leaveBtn_disabled v d :=
  Build_Dom (localVideo_srcObject d) (remoteVideo_srcObject d)
    (localPlaceholder_hidden d) (remotePlaceholder_hidden d)
    (joinBtn_disabled d) v (toggleVideoBtn d) (toggleAudioBtn d)
    (connectionStatus_className d) (statusText_textContent d)
    (errorMsg_textContent d).
Definition set_toggleVideoBtn v d :=
  Build_Dom (localVideo_srcObject d) (remoteVideo_srcObject d)
    (localPlaceholder_hidden d) (remotePlaceholder_hidden d)
    (joinBtn_disabled d) (leaveBtn_disabled d) v (toggleAudioBtn d)
    (connectionStatus_className d) (statusText_textContent d)
    (errorMsg_textContent d).
Definition set_toggleAudioBtn v d :=
  Build_Dom (localVideo_srcObject d) (remoteVideo_srcObject d)
    (localPlaceholder_hidden d) (remotePlaceholder_hidden d)
    (joinBtn_disabled d) (leaveBtn_disabled d) (toggleVideoBtn d) v
    (connectionStatus_className d) (statusText_textContent d)
    (errorMsg_textContent d).
Definition set_connectionStatus_className v d :=
  Build_Dom (localVideo_srcObject d) (remoteVideo_srcObject d)
    (localPlaceholder_hidden d) (remotePlaceholder_hidden d)
    (joinBtn_disabled d) (leaveBtn_disabled d) (toggleVideoBtn d)
    (toggleAudioBtn d) v (statusText_textContent d) (errorMsg_textContent d).
Definition set_statusText_textContent v d :=
  Build_Dom (localVideo_srcObject d) (remoteVideo_srcObject d)
    (localPlaceholder_hidden d) (remotePlaceholder_hidden d)
    (joinBtn_disabled d) (leaveBtn_disabled d) (toggleVideoBtn d)
    (toggleAudioBtn d) (connectionStatus_className d) v
    (errorMsg_textContent d).
Definition set_errorMsg_textContent v d :=
  Build_Dom (localVideo_srcObject d) (remoteVideo_srcObject d)
    (localPlaceholder_hidden d) (remotePlaceholder_hidden d)
    (joinBtn_disabled d) (leaveBtn_disabled d) (toggleVideoBtn d)
    (toggleAudioBtn d) (connectionStatus_className d)
    (statusText_textContent d) v.

Definition set_tb_disabled v b :=
  Build_ToggleBtn v (tb_muted b) (icon_on_display b) (icon_off_display b).
Definition set_tb_muted v b :=
  Build_ToggleBtn (tb_disabled b) v (icon_on_display b) (icon_off_display b).
Definition set_icons (on off : string) b :=
  Build_ToggleBtn (tb_disabled b) (tb_muted b) on off.

Definition set_settled v pr := Build_Promise (origin pr) (attached pr) v.

Definition set_enabled v t := Build_MediaStreamTrack (kind t) v (stopped t).
Definition set_stopped v t := Build_MediaStreamTrack (kind t) (enabled t) v.

Definition pc_received (c : PcCall) (pc : RTCPeerConnection) :=
  Build_RTCPeerConnection (pc_calls pc ++ [c]) (iceConnectionState pc)
    (onicecandidate pc) (oniceconnectionstatechange pc) (ontrack pc).
Definition set_iceConnectionState v pc :=
  Build_RTCPeerConnection (pc_calls pc) v (onicecandidate pc)
    (oniceconnectionstatechange pc) (ontrack pc).
Definition set_onicecandidate pc :=
  Build_RTCPeerConnection (pc_calls pc) (iceConnectionState pc) true
    (oniceconnectionstatechange pc) (ontrack pc).
Definition set_oniceconnectionstatechange pc :=
  Build_RTCPeerConnection (pc_calls pc) (iceConnectionState pc)
    (onicecandidate pc) true (ontrack pc).
Definition set_ontrack pc :=
  Build_RTCPeerConnection (pc_calls pc) (iceConnectionState pc)
    (onicecandidate pc) (oniceconnectionstatechange pc) true.

(** ** Handlers are state transformers *)

Definition M (A : Type) : Type := State -> A * State.

#[export] Instance M_ret : MRet M := fun A a s => (a, s).
#[export] Instance M_bind : MBind M :=
  fun A B k m s => let (a, s') := m s in k a s'.

Definition gets {A} (f : State -> A) : M A := fun s => (f s, s).
Definition modify (f : State -> State) : M unit := fun s => (tt, f s).
Definition exec (m : M unit) (s : State) : State := snd (m s).

(** [xs.forEach(f)] *)
Fixpoint forEach {A} (xs : list A) (f : A -> M unit) : M unit :=
  match xs with
  | [] => mret tt
  | x :: xs' => f x ;; forEach xs' f
  end.

(** ** What the script does to its collaborators *)

Definition console_log (msg : string) : M unit :=
  modify (fun s => set_console (console s ++ [msg]) s).

Definition console_error (msg : string) : M unit := console_log msg.

Definition socket_emit (m : Msg) : M unit :=
  modify (fun s =>
    set_journal (journal s ++ [Sent m]) (set_emitted (emitted s ++ [m]) s)).

Definition modify_dom (f : Dom -> Dom) : M unit :=
  modify (fun s => set_dom (f (dom s)) s).

(** A method call on the object the variable [peerConnection] points at
    when the call is made. *)
Definition pc_call (c : PcCall) : M unit :=
  modify (fun s =>
    set_journal (journal s ++ [Called (current_pc_id s) c])
      (set_peerConnection (pc_received c (peerConnection s)) s)).

(** A promise is obtained from [o] and [r] is attached to it. *)
Definition promise (o : Origin) (r : Reaction) : M unit :=
  modify (fun s =>
    set_promises
      (promises s ++ [{| origin := o; attached := r; settled := false |}]) s).

(** A promise-returning method of the connection. *)
Definition pc_async (c : PcCall) (r : Reaction) : M unit :=
  pc_call c ;; promise (ByCall c) r.

Definition Math_random : M string :=
  fun s => (random_source s (random_drawn s),
            set_random_drawn (S (random_drawn s)) s).

Definition track_stop (t : TrackRef) : M unit :=
  modify (fun s => set_tracks (alter (set_stopped true) t (tracks s)) s).

Definition track_set_enabled (t : TrackRef) (v : bool) : M unit :=
  modify (fun s => set_tracks (alter (set_enabled v) t (tracks s)) s).

Definition has_kind (k : string) (store : list MediaStreamTrack)
    (t : TrackRef) : bool :=
  match store !! t with
  | Some tr => String.eqb (kind tr) k
  | None => false
  end.

Definition getVideoTracks (st : MediaStream) : M (list TrackRef) :=
  gets (fun s => List.filter (has_kind "video" (tracks s)) (stream_tracks st)).

Definition getAudioTracks (st : MediaStream) : M (list TrackRef) :=
  gets (fun s => List.filter (has_kind "audio" (tracks s)) (stream_tracks st)).

(** The browser hands over a new stream: its tracks enter the store. *)
Definition receive_stream (id : string) (fresh : list MediaStreamTrack)
    : M MediaStream :=
  fun s =>
    ({| stream_id := id;
        stream_tracks := seq (length (tracks s)) (length fresh) |},
     set_tracks (tracks s ++ fresh) s).

(** ** UI helper functions (client.js 279-290) *)

Definition updateConnectionStatus (state text : string) : M unit :=
  modify_dom (set_connectionStatus_className ("connection-status " +:+ state)) ;;
  modify_dom (set_statusText_textContent text).

Definition showError (message : string) : M unit :=
  modify_dom (set_errorMsg_textContent message).

Definition clearError : M unit :=
  modify_dom (set_errorMsg_textContent "").

(** ** WebRTC functions (client.js 92-124) *)

Definition createOffer : M unit :=
  console_log "Creating offer..." ;;
  pc_async (CreateOffer true true) OfferChain.

(** [.then(sdp => { ... })] of [createOffer] *)
Definition createOffer_then (sdp : Sdp) : M unit :=
  pc_async (SetLocalDescription sdp) Unobserved ;;
  socket_emit (MOffer sdp).

(** [.catch(error => { ... })] of [createOffer] *)
Definition createOffer_catch (error : JsError) : M unit :=
  console_error "Error creating offer:" ;;
  showError "Failed to create connection offer".

Definition createAnswer (sdp : Sdp) : M unit :=
  pc_async (SetRemoteDescription sdp) AnswerChainRemote.

(** first [.then(() => { ... })] of [createAnswer] *)
Definition createAnswer_then_remote_set : M unit :=
  console_log "Remote description set, creating answer..." ;;
  pc_async (CreateAnswer true true) AnswerChainCreated.

(** second [.then(answerSdp => { ... })] of [createAnswer] *)
Definition createAnswer_then_created (answerSdp : Sdp) : M unit :=
  console_log "Answer created" ;;
  pc_async (SetLocalDescription answerSdp) Unobserved ;;
  socket_emit (MAnswer answerSdp).

(** [.catch(error => { ... })] of [createAnswer] *)
Definition createAnswer_catch (error : JsError) : M unit :=
  console_error "Error creating answer:" ;;
  showError "Failed to establish connection".

(** ** Socket events (client.js 44-89) *)

Definition on_connect : M unit :=
  console_log "Connected to signaling server!" ;;
  updateConnectionStatus "connected" "Connected".

Definition on_disconnect : M unit :=
  console_log "Disconnected from signaling server" ;;
  updateConnectionStatus "disconnected" "Disconnected".

Definition on_connect_error (error : JsError) : M unit :=
  console_error "Connection error:" ;;
  updateConnectionStatus "disconnected" "Connection Failed" ;;
  showError "Cannot connect to server. Make sure the signaling server is running.".

Definition on_room_users (data : list string) : M unit :=
  console_log "Users in room:" ;;
  if (0 <? length data)%nat then createOffer else mret tt.

Definition on_getOffer (sdp : Sdp) : M unit :=
  console_log "Received offer" ;;
  createAnswer sdp.

Definition on_getAnswer (sdp : Sdp) : M unit :=
  console_log "Received answer" ;;
  pc_async (SetRemoteDescription sdp) Unobserved.

Definition on_getCandidate (candidate : Candidate) : M unit :=
  pc_async (AddIceCandidate candidate) CandidateChain.

Definition addIceCandidate_then : M unit :=
  console_log "ICE candidate added".

Definition addIceCandidate_catch (err : JsError) : M unit :=
  console_error "Error adding ICE candidate:".

Definition on_user_exit (id : string) : M unit :=
  console_log "User left:" ;;
  src ← gets (fun s => remoteVideo_srcObject (dom s));
  match src with
  | Some _ =>
      modify_dom (set_remoteVideo_srcObject None) ;;
      modify_dom (set_remotePlaceholder_hidden false)
  | None => mret tt
  end.

(** ** The handlers [init] puts on the connection (client.js 154-184) *)

Definition icecandidate_handler (candidate : option Candidate) : M unit :=
  match candidate with
  | Some c =>
      console_log "Sending ICE candidate" ;;
      socket_emit (MCandidate c)
  | None => mret tt
  end.

Definition iceconnectionstatechange_handler : M unit :=
  console_log "ICE connection state:" ;;
  st ← gets (fun s => iceConnectionState (peerConnection s));
  if String.eqb st "connected" then
    updateConnectionStatus "connected" "Peer Connected"
  else if String.eqb st "disconnected" then
    updateConnectionStatus "disconnected" "Peer Disconnected"
  else if String.eqb st "failed" then
    updateConnectionStatus "disconnected" "Connection Failed" ;;
    showError "Peer connection failed. Try rejoining."
  else mret tt.

Definition track_handler (streams : list MediaStream) : M unit :=
  console_log "Received remote track" ;;
  modify_dom (set_remoteVideo_srcObject (head streams)) ;;
  modify_dom (set_remotePlaceholder_hidden true).

(** ** init (client.js 127-205) *)

(** Up to the [await]. *)
Definition init : M unit :=
  console_log "Initializing video chat..." ;;
  clearError ;;
  promise ByGetUserMedia InitAwait.

(** The rest of the [try] block, once [getUserMedia] has produced
    [stream]. *)
Definition init_resume (stream : MediaStream) : M unit :=
  modify (set_localStream (Some stream)) ;;
  modify_dom (set_localVideo_srcObject (Some stream)) ;;
  modify_dom (set_localPlaceholder_hidden true) ;;
  modify_dom (fun d => set_toggleVideoBtn (set_tb_disabled false (toggleVideoBtn d)) d) ;;
  modify_dom (fun d => set_toggleAudioBtn (set_tb_disabled false (toggleAudioBtn d)) d) ;;
  modify_dom (set_leaveBtn_disabled false) ;;
  modify_dom (set_joinBtn_disabled true) ;;
  forEach (stream_tracks stream) (fun track => pc_call (AddTrack track stream)) ;;
  modify (fun s => set_peerConnection (set_onicecandidate (peerConnection s)) s) ;;
  modify (fun s => set_peerConnection (set_oniceconnectionstatechange (peerConnection s)) s) ;;
  modify (fun s => set_peerConnection (set_ontrack (peerConnection s)) s) ;;
  suffix ← Math_random;
  socket_emit (MJoin "1234" ("user_" +:+ suffix)) ;;
  updateConnectionStatus "connected" "In Room".

(** The [catch] block. *)
Definition init_catch (error : JsError) : M unit :=
  console_error "Error initializing:" ;;
  if String.eqb (err_name error) "NotAllowedError" then
    showError "Camera/microphone access denied. Please allow permissions and try again."
  else if String.eqb (err_name error) "NotFoundError" then
    showError "No camera or microphone found. Please connect a device."
  else
    showError ("Error: " +:+ err_message error).

(** ** leaveRoom (client.js 208-241) *)

Definition leaveRoom : M unit :=
  ls ← gets localStream;
  match ls with
  | Some st =>
      forEach (stream_tracks st) track_stop ;;
      modify (set_localStream None)
  | None => mret tt
  end ;;
  modify_dom (set_localVideo_srcObject None) ;;
  modify_dom (set_remoteVideo_srcObject None) ;;
  modify_dom (set_localPlaceholder_hidden false) ;;
  modify_dom (set_remotePlaceholder_hidden false) ;;
  pc_call Close ;;
  modify (fun s => set_peerConnection new_RTCPeerConnection
                     (set_replaced (replaced s ++ [peerConnection s]) s)) ;;
  modify_dom (set_joinBtn_disabled false) ;;
  modify_dom (set_leaveBtn_disabled true) ;;
  modify_dom (fun d => set_toggleVideoBtn (set_tb_disabled true (toggleVideoBtn d)) d) ;;
  modify_dom (fun d => set_toggleAudioBtn (set_tb_disabled true (toggleAudioBtn d)) d) ;;
  modify (set_isVideoEnabled true) ;;
  modify (set_isAudioEnabled true) ;;
  modify_dom (fun d => set_toggleVideoBtn (set_tb_muted false (toggleVideoBtn d)) d) ;;
  modify_dom (fun d => set_toggleAudioBtn (set_tb_muted false (toggleAudioBtn d)) d) ;;
  updateConnectionStatus "connected" "Connected" ;;
  clearError ;;
  console_log "Left room".

(** ** Toggle functions (client.js 244-276) *)

Definition toggleVideo : M unit :=
  ls ← gets localStream;
  match ls with
  | None => mret tt
  | Some st =>
      vts ← getVideoTracks st;
      match head vts with
      | Some videoTrack =>
          modify (fun s => set_isVideoEnabled (negb (isVideoEnabled s)) s) ;;
          v ← gets isVideoEnabled;
          track_set_enabled videoTrack v ;;
          modify_dom (fun d => set_toggleVideoBtn (set_tb_muted (negb v) (toggleVideoBtn d)) d) ;;
          modify_dom (fun d => set_toggleVideoBtn
            (set_icons (if (v : bool) then "block" else "none")
                       (if (v : bool) then "none" else "block") (toggleVideoBtn d)) d)
      | None => mret tt
      end
  end.

Definition toggleAudio : M unit :=
  ls ← gets localStream;
  match ls with
  | None => mret tt
  | Some st =>
      ats ← getAudioTracks st;
      match head ats with
      | Some audioTrack =>
          modify (fun s => set_isAudioEnabled (negb (isAudioEnabled s)) s) ;;
          v ← gets isAudioEnabled;
          track_set_enabled audioTrack v ;;
          modify_dom (fun d => set_toggleAudioBtn (set_tb_muted (negb v) (toggleAudioBtn d)) d) ;;
          modify_dom (fun d => set_toggleAudioBtn
            (set_icons (if (v : bool) then "block" else "none")
                       (if (v : bool) then "none" else "block") (toggleAudioBtn d)) d)
      | None => mret tt
      end
  end.

(** ** The machine *)

(** Everything that can happen to the page: a message from the relay, a
    click (the listeners of client.js 293-296), a promise settling, an event
    fired by a connection object. *)
Inductive Event :=
| SocketConnect
| SocketDisconnect
| SocketConnectError (error : JsError)
| RoomUsers (data : list string)
| GetOffer (sdp : Sdp)
| GetAnswer (sdp : Sdp)
| GetCandidate (candidate : Candidate)
| UserExit (id : string)
| ClickJoin
| ClickLeave
| ClickToggleVideo
| ClickToggleAudio
| Settle (p : nat) (o : Outcome)
| IceCandidateEv (target : nat) (candidate : option Candidate)
| IceConnectionStateChangeEv (target : nat) (st : string)
| TrackEv (target : nat) (streams : list MediaStream).

(** What runs when a promise carrying [r] settles with [o].  [None]: the
    browser never settles such a promise with such a value. *)
Definition reaction (r : Reaction) (o : Outcome) : option (M unit) :=
  match r, o with
  | OfferChain, Fulfilled (VDescription sdp) => Some (createOffer_then sdp)
  | OfferChain, Rejected e => Some (createOffer_catch e)
  | AnswerChainRemote, Fulfilled VUndefined => Some createAnswer_then_remote_set
  | AnswerChainRemote, Rejected e => Some (createAnswer_catch e)
  | AnswerChainCreated, Fulfilled (VDescription sdp) =>
      Some (createAnswer_then_created sdp)
  | AnswerChainCreated, Rejected e => Some (createAnswer_catch e)
  | CandidateChain, Fulfilled VUndefined => Some addIceCandidate_then
  | CandidateChain, Rejected e => Some (addIceCandidate_catch e)
  | InitAwait, Fulfilled (VStream id fresh) =>
      Some (stream ← receive_stream id fresh; init_resume stream)
  | InitAwait, Rejected e => Some (init_catch e)
  | Unobserved, Fulfilled VUndefined => Some (mret tt)
  | Unobserved, Rejected e => Some (mret tt)
  | _, _ => None
  end.

(** The connection object number [target], if it exists. *)
Definition pc_at (s : State) (target : nat) : option RTCPeerConnection :=
  (replaced s ++ [peerConnection s]) !! target.

(** The browser changes the [iceConnectionState] of object [target]. *)
Definition browser_sets_ice_state (target : nat) (st : string) (s : State)
    : State :=
  if decide (target = current_pc_id s)
  then set_peerConnection (set_iceConnectionState st (peerConnection s)) s
  else set_replaced (alter (set_iceConnectionState st) target (replaced s)) s.

Definition step (s : State) (e : Event) : option State :=
  match e with
  | SocketConnect => Some (exec on_connect s)
  | SocketDisconnect => Some (exec on_disconnect s)
  | SocketConnectError error => Some (exec (on_connect_error error) s)
  | RoomUsers data => Some (exec (on_room_users data) s)
  | GetOffer sdp => Some (exec (on_getOffer sdp) s)
  | GetAnswer sdp => Some (exec (on_getAnswer sdp) s)
  | GetCandidate candidate => Some (exec (on_getCandidate candidate) s)
  | UserExit id => Some (exec (on_user_exit id) s)
  | ClickJoin => Some (exec init s)
  | ClickLeave => Some (exec leaveRoom s)
  | ClickToggleVideo => Some (exec toggleVideo s)
  | ClickToggleAudio => Some (exec toggleAudio s)
  | Settle p o =>
      match promises s !! p with
      | Some pr =>
          if settled pr then None
          else
            match reaction (attached pr) o with
            | Some k =>
                Some (exec k
                  (set_promises (alter (set_settled true) p (promises s)) s))
            | None => None
            end
      | None => None
      end
  | IceCandidateEv target candidate =>
      match pc_at s target with
      | Some pc =>
          Some (if onicecandidate pc
                then exec (icecandidate_handler candidate) s else s)
      | None => None
      end
  | IceConnectionStateChangeEv target st =>
      match pc_at s target with
      | Some pc =>
          let s1 := browser_sets_ice_state target st s in
          Some (if oniceconnectionstatechange pc
                then exec iceconnectionstatechange_handler s1 else s1)
      | None => None
      end
  | TrackEv target streams =>
      match pc_at s target with
      | Some pc =>
          Some (if ontrack pc then exec (track_handler streams) s else s)
      | None => None
      end
  end.

Fixpoint run (s : State) (es : list Event) : option State :=
  match es with
  | [] => Some s
  | e :: es' =>
      match step s e with
      | Some s' => run s' es'
      | None => None
      end
  end.

(** The module-level initialisers (client.js 19-21, 41), on a page [d]. *)
Definition page_load (d : Dom) (rnd : nat -> string) : State :=
  {| localStream := None;
     isVideoEnabled := true;
     isAudioEnabled := true;
     peerConnection := new_RTCPeerConnection;
     dom := d;
     replaced := [];
     tracks := [];
     promises := [];
     emitted := [];
     console := [];
     random_source := rnd;
     random_drawn := 0;
     journal := [] |}.

(** *** What the recorded calls say about a connection *)

Definition is_SetRemoteDescription (c : PcCall) : bool :=
  match c with SetRemoteDescription _ => true | _ => false end.

(** [setRemoteDescription] has been called on the connection. *)
Definition remote_description_requested (pc : RTCPeerConnection) : bool :=
  existsb is_SetRemoteDescription (pc_calls pc).

(** *** A page and some values to run the machine on *)

Definition a_button : ToggleBtn :=
  {| tb_disabled := true; tb_muted := false;
     icon_on_display := "block"; icon_off_display := "none" |}.

Definition a_page : Dom :=
  {| localVideo_srcObject := None;
     remoteVideo_srcObject := None;
     localPlaceholder_hidden := false;
     remotePlaceholder_hidden := false;
     joinBtn_disabled := false;
     leaveBtn_disabled := true;
     toggleVideoBtn := a_button;
     toggleAudioBtn := a_button;
     connectionStatus_className := "connection-status";
     statusText_textContent := "";
     errorMsg_textContent := "" |}.

Definition at_load : State := page_load a_page (fun _ => "k3j9x").

Definition camera_and_microphone : Value :=
  VStream "local"
    [ {| kind := "audio"; enabled := true; stopped := false |};
      {| kind := "video"; enabled := true; stopped := false |} ].

(** The state once the user has joined with camera and microphone. *)
Definition after_join : State :=
  Eval vm_compute in
    default at_load
      (run at_load [ClickJoin; Settle 0 (Fulfilled camera_and_microphone)]).

Definition offer1 : Sdp := {| sdp_type := "offer"; sdp_text := "v=0 o1" |}.
Definition offer2 : Sdp := {| sdp_type := "offer"; sdp_text := "v=0 o2" |}.
Definition answer1 : Sdp := {| sdp_type := "answer"; sdp_text := "v=0 a1" |}.
Definition answer2 : Sdp := {| sdp_type := "answer"; sdp_text := "v=0 a2" |}.
Definition remote_stream : MediaStream :=
  {| stream_id := "remote"; stream_tracks := [] |}.
Definition not_allowed : JsError :=
  {| err_name := "NotAllowedError"; err_message := "Permission denied" |}.
Definition invalid_state : JsError :=
  {| err_name := "InvalidStateError";
     err_message := "The remote description was null" |}.

(** *** Reading the state *)

(** Promise [p] is unsettled and carries the reaction [r]. *)
Definition pending_with (r : Reaction) (s : State) (p : nat) : Prop :=
  exists o,
    promises s !! p = Some {| origin := o; attached := r; settled := false |}.

(** [localStream.getVideoTracks()[0]] / [localStream.getAudioTracks()[0]]:
    the track a toggle of kind [k] writes, if any. *)
Definition toggled_track (k : string) (s : State) : option TrackRef :=
  match localStream s with
  | Some st => head (List.filter (has_kind k (tracks s)) (stream_tracks st))
  | None => None
  end.

(** What a toggle of kind [k] may change between [s] and [s']: the
    [enabled] flag of the toggled track, the script's own flag for that
    kind, and that kind's button.  Nothing is sent, no connection object is
    called, no promise is obtained. *)
Definition toggle_frame (k : string) (s s' : State) : Prop :=
  emitted s' = emitted s /\
  peerConnection s' = peerConnection s /\
  replaced s' = replaced s /\
  promises s' = promises s /\
  localStream s' = localStream s /\
  length (tracks s') = length (tracks s) /\
  (forall t, toggled_track k s <> Some t -> tracks s' !! t = tracks s !! t) /\
  (forall t tr, tracks s !! t = Some tr ->
     exists tr', tracks s' !! t = Some tr' /\
       kind tr' = kind tr /\ stopped tr' = stopped tr).

(** A handler leaves the observation [f] of the state alone. *)
Definition preserves {A B} (f : State -> A) (m : M B) : Prop :=
  forall s, f (snd (m s)) = f s.

(** Every message a handler sends satisfies [P]. *)
Definition emits_only {B} (P : Msg -> Prop) (m : M B) : Prop :=
  forall s,
    exists new, emitted (snd (m s)) = emitted s ++ new /\ Forall P new.

(** Neither an offer nor an answer. *)
Definition not_a_description (m : Msg) : Prop :=
  match m with
  | MOffer _ | MAnswer _ => False
  | MJoin _ _ | MCandidate _ => True
  end.

(** *** Invariants *)

(** A handler keeps the property [I] of the state. *)
Definition keeps {B} (I : State -> Prop) (m : M B) : Prop :=
  forall s, I s -> I (snd (m s)).

(** Every piece of the script that a step of the machine can run. *)
Inductive script_code : M unit -> Prop :=
| code_on_connect : script_code on_connect
| code_on_disconnect : script_code on_disconnect
| code_on_connect_error e : script_code (on_connect_error e)
| code_on_room_users data : script_code (on_room_users data)
| code_on_getOffer sdp : script_code (on_getOffer sdp)
| code_on_getAnswer sdp : script_code (on_getAnswer sdp)
| code_on_getCandidate c : script_code (on_getCandidate c)
| code_on_user_exit id : script_code (on_user_exit id)
| code_init : script_code init
| code_leaveRoom : script_code leaveRoom
| code_toggleVideo : script_code toggleVideo
| code_toggleAudio : script_code toggleAudio
| code_createOffer_then sdp : script_code (createOffer_then sdp)
| code_createOffer_catch e : script_code (createOffer_catch e)
| code_createAnswer_then_remote_set :
    script_code createAnswer_then_remote_set
| code_createAnswer_then_created sdp :
    script_code (createAnswer_then_created sdp)
| code_createAnswer_catch e : script_code (createAnswer_catch e)
| code_addIceCandidate_then : script_code addIceCandidate_then
| code_addIceCandidate_catch e : script_code (addIceCandidate_catch e)
| code_init_resume id fresh :
    script_code (stream ← receive_stream id fresh; init_resume stream)
| code_init_catch e : script_code (init_catch e)
| code_nothing : script_code (mret tt)
| code_icecandidate_handler c : script_code (icecandidate_handler c)
| code_iceconnectionstatechange_handler :
    script_code iceconnectionstatechange_handler
| code_track_handler streams : script_code (track_handler streams).

(** What the browser itself changes in a step, before the script runs. *)
Inductive browser_change (s : State) : State -> Prop :=
| browser_idle : browser_change s s
| browser_settles p :
    browser_change s
      (set_promises (alter (set_settled true) p (promises s)) s)
| browser_ice target st :
    browser_change s (browser_sets_ice_state target st s).

(** The states the page can be in, from its load on page [d]. *)
Inductive reachable (d : Dom) (rnd : nat -> string) : State -> Prop :=
| reach_load : reachable d rnd (page_load d rnd)
| reach_step s e s' :
    reachable d rnd s -> step s e = Some s' -> reachable d rnd s'.

(** The current connection has not been closed, and every connection that
    was set aside received [close()] as its last call, once. *)
Definition closed_once_and_last (pc : RTCPeerConnection) : Prop :=
  exists before, pc_calls pc = before ++ [Close] /\ (Close ∉ before).

Definition no_call_after_close (s : State) : Prop :=
  (Close ∉ pc_calls (peerConnection s)) /\
  Forall closed_once_and_last (replaced s).

(** The status class on the page is the one of page [d], or one of the two
    the script writes. *)
Definition known_status_class (d : Dom) (s : State) : Prop :=
  connectionStatus_className (dom s) = connectionStatus_className d \/
  connectionStatus_className (dom s) = "connection-status connected" \/
  connectionStatus_className (dom s) = "connection-status disconnected".

(** A toggle button shows what the flag [v] says. *)
Definition button_shows (v : bool) (b : ToggleBtn) : Prop :=
  tb_muted b = negb v /\
  icon_on_display b = (if v then "block" else "none") /\
  icon_off_display b = (if v then "none" else "block").

(** The local video element and the buttons say whether a local stream is
    held: with a stream, the element shows it, the placeholder is hidden,
    Join is disabled and Leave and the toggles are enabled; without one it
    is the other way round. *)
Definition page_matches_stream (s : State) : Prop :=
  localVideo_srcObject (dom s) = localStream s /\
  let held := match localStream s with Some _ => true | None => false end in
  localPlaceholder_hidden (dom s) = held /\
  joinBtn_disabled (dom s) = held /\
  leaveBtn_disabled (dom s) = negb held /\
  tb_disabled (toggleVideoBtn (dom s)) = negb held /\
  tb_disabled (toggleAudioBtn (dom s)) = negb held.

(** The connection carries none of the three handlers of [init]. *)
Definition no_handlers (pc : RTCPeerConnection) : Prop :=
  onicecandidate pc = false /\
  oniceconnectionstatechange pc = false /\
  ontrack pc = false.

Definition current_has_no_handlers (s : State) : Prop :=
  no_handlers (peerConnection s).

(** Every event but a media acquisition that succeeds. *)
Definition no_successful_join (e : Event) : Prop :=
  match e with
  | Settle _ (Fulfilled (VStream _ _)) => False
  | _ => True
  end.

(** * Properties *)

(** ** Reasoning about handlers *)

Ltac open_monad :=
  cbv beta iota zeta delta
    [exec mbind M_bind mret M_ret gets modify modify_dom console_log
     console_error socket_emit pc_call promise pc_async Math_random
     track_stop track_set_enabled getVideoTracks getAudioTracks
     receive_stream updateConnectionStatus showError clearError fst snd].

Section Frames.
Context {A : Type} (f : State -> A).

Lemma preserves_ret {B} (b : B) : preserves f (mret b).
Proof. intros s. reflexivity. Qed.

Lemma preserves_gets {B} (g : State -> B) : preserves f (gets g).
Proof. intros s. reflexivity. Qed.

Lemma preserves_modify (g : State -> State) :
  (forall s, f (g s) = f s) -> preserves f (modify g).
Proof. intros Hg s. apply Hg. Qed.

Lemma preserves_bind {B C} (m : M B) (k : B -> M C) :
  preserves f m -> (forall b, preserves f (k b)) -> preserves f (m ≫= k).
Proof.
  intros Hm Hk s. unfold mbind, M_bind.
  specialize (Hm s). destruct (m s) as [b s1]. simpl in *.
  rewrite Hk. exact Hm.
Qed.

Lemma preserves_forEach {B} (xs : list B) (h : B -> M unit) :
  (forall x, preserves f (h x)) -> preserves f (forEach xs h).
Proof.
  intros Hh. induction xs as [|x xs IH]; simpl.
  - apply preserves_ret.
  - apply preserves_bind; [apply Hh | intros _; exact IH].
Qed.
End Frames.

Ltac frame_step :=
  first
    [ apply preserves_ret
    | apply preserves_gets
    | apply preserves_modify; intros ?; reflexivity
    | apply preserves_forEach; intros ?
    | apply preserves_bind; [| intros ?]
    | match goal with
      | |- preserves _ (match ?x with _ => _ end) => destruct x
      end ].

Ltac frame :=
  unfold modify_dom, console_log, console_error, socket_emit, pc_call,
    promise, pc_async, track_stop, track_set_enabled, getVideoTracks,
    getAudioTracks, updateConnectionStatus, showError, clearError;
  repeat frame_step.

(** ** Toggles *)

(** C10.  When no local stream has been acquired ([localStream] is null),
    [toggleVideo] and [toggleAudio] return at once and change nothing at
    all: the state after the call, and after the click that triggers it, is
    the state before. *)
Theorem C10_toggle_without_stream_changes_nothing (s : State) :
  localStream s = None ->
  toggleVideo s = (tt, s) /\ toggleAudio s = (tt, s) /\
  step s ClickToggleVideo = Some s /\ step s ClickToggleAudio = Some s.
Proof.
  intros Hnull.
  assert (Hv : toggleVideo s = (tt, s))
    by (unfold toggleVideo; open_monad; rewrite Hnull; reflexivity).
  assert (Ha : toggleAudio s = (tt, s))
    by (unfold toggleAudio; open_monad; rewrite Hnull; reflexivity).
  repeat split; trivial; simpl; unfold exec.
  - rewrite Hv. reflexivity.
  - rewrite Ha. reflexivity.
Qed.

Lemma C10_toggle_without_stream_witness :
  localStream at_load = None /\
  toggleVideo at_load = (tt, at_load) /\
  toggleAudio at_load = (tt, at_load) /\
  step at_load ClickToggleVideo = Some at_load /\
  step at_load ClickToggleAudio = Some at_load.
Proof.
  split; [reflexivity |].
  apply (C10_toggle_without_stream_changes_nothing at_load).
  reflexivity.
Defined.

Lemma toggle_frame_refl (k : string) (s : State) : toggle_frame k s s.
Proof.
  repeat split; trivial.
  intros t tr Ht. exists tr. auto.
Qed.

(** Writing [enabled] on the toggled track stays inside the frame, whatever
    else happens to the flags and the page. *)
Lemma toggle_frame_write (k : string) (s s' : State) (t : TrackRef)
    (v : bool) :
  toggled_track k s = Some t ->
  emitted s' = emitted s -> peerConnection s' = peerConnection s ->
  replaced s' = replaced s -> promises s' = promises s ->
  localStream s' = localStream s ->
  tracks s' = alter (set_enabled v) t (tracks s) ->
  toggle_frame k s s'.
Proof.
  intros Ht He Hpc Hr Hp Hl Htr.
  repeat split; trivial; rewrite Htr.
  - apply length_alter.
  - intros t' Hne. apply list_lookup_alter_ne. congruence.
  - intros t' tr Hlook.
    destruct (decide (t = t')) as [->|Hne].
    + rewrite list_lookup_alter_eq, Hlook. simpl.
      eexists. split; [reflexivity | split; reflexivity].
    + rewrite list_lookup_alter_ne by exact Hne. exists tr. auto.
Qed.

(** C9.  A toggle of the local video (audio) track writes only the
    [enabled] flag of the first video (audio) track of the local stream,
    the script's flag for that kind and that kind's button.  No message is
    emitted, no connection object is called (so nothing is renegotiated),
    no promise is obtained; every other track, the other kind's flag and
    every other element of the page are as before. *)
Theorem C9_toggle_is_purely_local (s : State) :
  let v := exec toggleVideo s in
  let a := exec toggleAudio s in
  (toggle_frame "video" s v /\
   isAudioEnabled v = isAudioEnabled s /\
   dom v = set_toggleVideoBtn (toggleVideoBtn (dom v)) (dom s) /\
   tb_disabled (toggleVideoBtn (dom v)) = tb_disabled (toggleVideoBtn (dom s)))
  /\
  (toggle_frame "audio" s a /\
   isVideoEnabled a = isVideoEnabled s /\
   dom a = set_toggleAudioBtn (toggleAudioBtn (dom a)) (dom s) /\
   tb_disabled (toggleAudioBtn (dom a)) = tb_disabled (toggleAudioBtn (dom s))).
Proof.
  split.
  - unfold toggleVideo. open_monad.
    destruct (localStream s) as [st|] eqn:Hls.
    + destruct (head (List.filter (has_kind "video" (tracks s))
                        (stream_tracks st))) as [t|] eqn:Hhd.
      * simpl. split; [| repeat split].
        eapply toggle_frame_write; try reflexivity.
        unfold toggled_track. rewrite Hls. exact Hhd.
      * simpl. split; [apply toggle_frame_refl | repeat split].
        destruct (dom s); reflexivity.
    + simpl. split; [apply toggle_frame_refl | repeat split].
      destruct (dom s); reflexivity.
  - unfold toggleAudio. open_monad.
    destruct (localStream s) as [st|] eqn:Hls.
    + destruct (head (List.filter (has_kind "audio" (tracks s))
                        (stream_tracks st))) as [t|] eqn:Hhd.
      * simpl. split; [| repeat split].
        eapply toggle_frame_write; try reflexivity.
        unfold toggled_track. rewrite Hls. exact Hhd.
      * simpl. split; [apply toggle_frame_refl | repeat split].
        destruct (dom s); reflexivity.
    + simpl. split; [apply toggle_frame_refl | repeat split].
      destruct (dom s); reflexivity.
Qed.

Example toggleVideo_after_join :
  (fun s => (tracks s, isVideoEnabled s, tb_muted (toggleVideoBtn (dom s)),
             emitted s))
  <$> run at_load
        [ClickJoin; Settle 0 (Fulfilled camera_and_microphone);
         ClickToggleVideo]
  = Some ([ {| kind := "audio"; enabled := true; stopped := false |};
            {| kind := "video"; enabled := false; stopped := false |} ],
          false, true, [MJoin "1234" "user_k3j9x"]).
Proof. reflexivity. Qed.

(** ** Join *)

(** The message [init]'s [catch] block shows for [error]. *)
Lemma init_catch_shows (error : JsError) (s : State) :
  exists message,
    message <> "" /\
    exec (init_catch error) s =
      set_dom (set_errorMsg_textContent message (dom s))
        (set_console (console s ++ ["Error initializing:"]) s).
Proof.
  unfold init_catch. open_monad.
  destruct (String.eqb (err_name error) "NotAllowedError");
    [| destruct (String.eqb (err_name error) "NotFoundError")];
    simpl; eexists; (split; [| reflexivity]); discriminate.
Qed.

(** [init] up to its [await]: the error line is cleared and the promise of
    [getUserMedia] is awaited; nothing else happens. *)
Lemma init_awaits_media (s : State) :
  exec init s =
    set_promises
      (promises s ++
         [{| origin := ByGetUserMedia; attached := InitAwait;
             settled := false |}])
      (set_dom (set_errorMsg_textContent "" (dom s))
         (set_console (console s ++ ["Initializing video chat..."]) s)).
Proof. reflexivity. Qed.

(** A rejected media acquisition is reported on the page and changes
    nothing else. *)
Lemma media_rejection_only_shown (t : State) (p : nat) (error : JsError) :
  pending_with InitAwait t p ->
  exists t' message,
    step t (Settle p (Rejected error)) = Some t' /\
    message <> "" /\
    dom t' = set_errorMsg_textContent message (dom t) /\
    emitted t' = emitted t /\
    peerConnection t' = peerConnection t /\
    replaced t' = replaced t /\
    localStream t' = localStream t /\
    tracks t' = tracks t /\
    isVideoEnabled t' = isVideoEnabled t /\
    isAudioEnabled t' = isAudioEnabled t.
Proof.
  intros [o Hp].
  destruct (init_catch_shows error
              (set_promises (alter (set_settled true) p (promises t)) t))
    as (message & Hne & Hexec).
  eexists; exists message.
  simpl. rewrite Hp. simpl. rewrite Hexec.
  repeat split. exact Hne.
Qed.

(** C8.  A click on Join only asks for the camera and the microphone and
    waits: nothing is sent and the connection is not called.  When that
    acquisition rejects, at whatever later moment, the script only reports
    it: an error message (never empty) is put on the page.  No [join]
    (indeed no message) is sent, no track is added to the connection (it
    receives no call and no handler), [localStream], the flags and the
    buttons are as they were. *)
Theorem C8_media_failure_is_shown_and_nothing_joined
    (s t : State) (p : nat) (error : JsError) :
  (let s1 := exec init s in
   step s ClickJoin = Some s1 /\
   pending_with InitAwait s1 (length (promises s)) /\
   emitted s1 = emitted s /\
   peerConnection s1 = peerConnection s /\
   localStream s1 = localStream s /\
   tracks s1 = tracks s)
  /\
  (pending_with InitAwait t p ->
   exists t' message,
     step t (Settle p (Rejected error)) = Some t' /\
     message <> "" /\
     dom t' = set_errorMsg_textContent message (dom t) /\
     emitted t' = emitted t /\
     peerConnection t' = peerConnection t /\
     replaced t' = replaced t /\
     localStream t' = localStream t /\
     tracks t' = tracks t /\
     isVideoEnabled t' = isVideoEnabled t /\
     isAudioEnabled t' = isAudioEnabled t).
Proof.
  split.
  - cbv zeta. rewrite init_awaits_media.
    split; [reflexivity |]. split; [| repeat split].
    exists ByGetUserMedia. apply list_lookup_middle. reflexivity.
  - apply media_rejection_only_shown.
Qed.

Lemma C8_media_failure_witness :
  exists s1,
    step at_load ClickJoin = Some s1 /\
    pending_with InitAwait s1 0 /\
    exists s',
      step s1 (Settle 0 (Rejected not_allowed)) = Some s' /\
      errorMsg_textContent (dom s') <> "" /\
      emitted s' = [] /\
      peerConnection s' = new_RTCPeerConnection /\
      localStream s' = None.
Proof.
  destruct (C8_media_failure_is_shown_and_nothing_joined
              at_load (exec init at_load) 0 not_allowed)
    as [(Hclick & Hp & _) Hreject].
  exists (exec init at_load). split; [exact Hclick |].
  split; [exact Hp |].
  destruct (Hreject Hp)
    as (s' & message & Hstep & Hne & Hdom & Hem & Hpc & _ & Hls & _).
  exists s'. split; [exact Hstep |].
  rewrite Hdom, Hem, Hpc, Hls. simpl.
  repeat split. exact Hne.
Defined.

(** Settling a pending promise runs the reaction attached to it. *)
Lemma settle_pending (r : Reaction) (s : State) (p : nat) (o : Outcome)
    (k : M unit) :
  pending_with r s p -> reaction r o = Some k ->
  step s (Settle p o) =
    Some (exec k (set_promises (alter (set_settled true) p (promises s)) s)).
Proof.
  intros [og Hp] Hk. unfold step. rewrite Hp. cbn [settled attached].
  rewrite Hk. reflexivity.
Qed.

(** ** Remote candidates *)

(** The user has joined and waits; no remote description has been given to
    the connection.  The first remote candidate is nevertheless handed to
    [addIceCandidate] at once: nothing is buffered.  When the browser
    rejects it and the remote offer arrives afterwards, the connection
    receives [setRemoteDescription], [createAnswer] and
    [setLocalDescription] and never sees the candidate again. *)
Lemma C1_candidate_applied_before_remote_description :
  remote_description_requested (peerConnection after_join) = false /\
  exists s1,
    step after_join (GetCandidate "candidate:1") = Some s1 /\
    pc_calls (peerConnection s1) =
      pc_calls (peerConnection after_join) ++
        [AddIceCandidate "candidate:1"] /\
    exists s2,
      run s1 [Settle 1 (Rejected invalid_state);
              GetOffer offer1;
              Settle 2 (Fulfilled VUndefined);
              Settle 3 (Fulfilled (VDescription answer1))] = Some s2 /\
      pc_calls (peerConnection s2) =
        pc_calls (peerConnection after_join) ++
          [AddIceCandidate "candidate:1"; SetRemoteDescription offer1;
           CreateAnswer true true; SetLocalDescription answer1] /\
      emitted s2 = [MJoin "1234" "user_k3j9x"; MAnswer answer1].
Proof.
  split; [reflexivity |].
  eexists. split; [vm_compute; reflexivity |]. split; [reflexivity |].
  eexists. split; [vm_compute; reflexivity |]. split; reflexivity.
Qed.

(** A rejected candidate is logged, and that is all. *)
Lemma candidate_rejection_only_logged (s : State) (p : nat) (err : JsError) :
  pending_with CandidateChain s p ->
  step s (Settle p (Rejected err)) =
    Some (set_console (console s ++ ["Error adding ICE candidate:"])
            (set_promises (alter (set_settled true) p (promises s)) s)).
Proof.
  intros Hp.
  apply (settle_pending CandidateChain s p (Rejected err)
           (addIceCandidate_catch err)); [exact Hp | reflexivity].
Qed.

(** Any run of remote candidates goes to the connection, in order. *)
Lemma candidates_run (cs : list Candidate) (s : State) :
  exists s',
    run s (GetCandidate <$> cs) = Some s' /\
    pc_calls (peerConnection s') =
      pc_calls (peerConnection s) ++ (AddIceCandidate <$> cs) /\
    promises s' =
      promises s ++
        ((fun c => {| origin := ByCall (AddIceCandidate c);
                      attached := CandidateChain; settled := false |})
           <$> cs) /\
    replaced s' = replaced s /\
    emitted s' = emitted s /\
    dom s' = dom s.
Proof.
  revert s. induction cs as [|c cs IH]; intros s.
  - exists s. rewrite !fmap_nil, !app_nil_r. repeat split.
  - destruct (IH (exec (on_getCandidate c) s))
      as (s' & Hrun & Hcalls & Hprom & Hrep & Hem & Hdom).
    exists s'. split; [exact Hrun |].
    rewrite Hcalls, Hprom, Hrep, Hem, Hdom, !fmap_cons.
    change (pc_calls (peerConnection (exec (on_getCandidate c) s)))
      with (pc_calls (peerConnection s) ++ [AddIceCandidate c]).
    change (promises (exec (on_getCandidate c) s))
      with (promises s ++
              [{| origin := ByCall (AddIceCandidate c);
                  attached := CandidateChain; settled := false |}]).
    rewrite <- !app_assoc. repeat split.
Qed.

(** C1, as the script has it.  Every remote candidate delivered is handed
    to [addIceCandidate] on the current connection as it arrives, whether
    or not a remote description has been given; successive candidates reach
    the connection in arrival order, nothing is sent and the page is not
    touched.  There is no buffer: a candidate the browser rejects is logged
    and the connection is not called again for it, and when the remote
    description of an incoming offer has been applied the connection
    receives [createAnswer] and no candidate. *)
Theorem C1_candidates_reach_transport_on_arrival
    (cs : list Candidate) (s : State) (p : nat) (err : JsError) :
  (exists s',
     run s (GetCandidate <$> cs) = Some s' /\
     pc_calls (peerConnection s') =
       pc_calls (peerConnection s) ++ (AddIceCandidate <$> cs) /\
     promises s' =
       promises s ++
         ((fun c => {| origin := ByCall (AddIceCandidate c);
                       attached := CandidateChain; settled := false |})
            <$> cs) /\
     replaced s' = replaced s /\
     emitted s' = emitted s /\
     dom s' = dom s)
  /\
  (pending_with CandidateChain s p ->
   exists s',
     step s (Settle p (Rejected err)) = Some s' /\
     peerConnection s' = peerConnection s /\
     promises s' = alter (set_settled true) p (promises s) /\
     emitted s' = emitted s /\
     dom s' = dom s)
  /\
  (pending_with AnswerChainRemote s p ->
   exists s',
     step s (Settle p (Fulfilled VUndefined)) = Some s' /\
     pc_calls (peerConnection s') =
       pc_calls (peerConnection s) ++ [CreateAnswer true true]).
Proof.
  split; [apply candidates_run |]. split.
  - intros Hp. eexists. split.
    + apply candidate_rejection_only_logged. exact Hp.
    + repeat split.
  - intros Hp. eexists. split.
    + apply (settle_pending AnswerChainRemote); [exact Hp | reflexivity].
    + reflexivity.
Qed.

Lemma C1_candidates_witness :
  (exists s',
     step (exec (on_getCandidate "candidate:1") after_join)
       (Settle 1 (Rejected invalid_state)) = Some s' /\
     peerConnection s' =
       peerConnection (exec (on_getCandidate "candidate:1") after_join)) /\
  (exists s',
     step (exec (on_getOffer offer1) after_join)
       (Settle 1 (Fulfilled VUndefined)) = Some s' /\
     pc_calls (peerConnection s') =
       pc_calls (peerConnection after_join) ++
         [SetRemoteDescription offer1; CreateAnswer true true]).
Proof.
  split.
  - destruct (C1_candidates_reach_transport_on_arrival []
                (exec (on_getCandidate "candidate:1") after_join) 1
                invalid_state) as (_ & Hrej & _).
    destruct Hrej as (s' & Hstep & Hpc & _).
    { eexists. reflexivity. }
    exists s'. split; [exact Hstep | exact Hpc].
  - destruct (C1_candidates_reach_transport_on_arrival []
                (exec (on_getOffer offer1) after_join) 1
                invalid_state) as (_ & _ & Hdesc).
    destruct Hdesc as (s' & Hstep & Hcalls).
    { eexists. reflexivity. }
    exists s'. split; [exact Hstep |].
    rewrite Hcalls. reflexivity.
Defined.

(** ** Leaving, and what arrives afterwards *)

Ltac frame_handler :=
  unfold on_connect, on_disconnect, on_connect_error, on_room_users,
    on_getOffer, on_getAnswer, on_getCandidate, on_user_exit, createOffer,
    createOffer_then, createOffer_catch, createAnswer,
    createAnswer_then_remote_set, createAnswer_then_created,
    createAnswer_catch, addIceCandidate_then, addIceCandidate_catch,
    icecandidate_handler, iceconnectionstatechange_handler, track_handler,
    init, init_resume, init_catch, leaveRoom, toggleVideo, toggleAudio;
  frame;
  try solve [intros ?; reflexivity].

Lemma exec_preserves {A} (f : State -> A) (m : M unit) (s : State) :
  preserves f m -> f (exec m s) = f s.
Proof. intros H. apply H. Qed.

(** Stopping tracks touches the track store only. *)
Lemma forEach_track_stop (ts : list TrackRef) (s : State) :
  exists store, forEach ts track_stop s = (tt, set_tracks store s).
Proof.
  revert s. induction ts as [|t ts IH]; intros s.
  - exists (tracks s). destruct s; reflexivity.
  - destruct (IH (set_tracks (alter (set_stopped true) t (tracks s)) s))
      as [store Hstore].
    exists store. simpl. unfold mbind, M_bind, track_stop at 1, modify.
    rewrite Hstore. reflexivity.
Qed.

(** [leaveRoom] closes the current connection object, sets it aside and
    makes a new one current. *)
Lemma leaveRoom_transport (s : State) :
  peerConnection (exec leaveRoom s) = new_RTCPeerConnection /\
  replaced (exec leaveRoom s) =
    replaced s ++ [pc_received Close (peerConnection s)] /\
  emitted (exec leaveRoom s) = emitted s /\
  promises (exec leaveRoom s) = promises s.
Proof.
  unfold leaveRoom, exec, mbind, M_bind, gets.
  destruct (localStream s) as [st|].
  - destruct (forEach_track_stop (stream_tracks st) s) as [store ->].
    repeat split.
  - repeat split.
Qed.

Lemma reaction_keeps_replaced (r : Reaction) (o : Outcome) (k : M unit) :
  reaction r o = Some k -> preserves replaced k.
Proof.
  destruct r, o as [[| |]|]; simpl; intros [= <-]; frame_handler.
Qed.

Lemma alter_at_length {A} (g : A -> A) (l : list A) :
  alter g (length l) l = l.
Proof. induction l as [|x l IH]; simpl; [reflexivity | f_equal; exact IH]. Qed.

(** How one step changes the connection objects that were set aside. *)
Lemma step_replaced (s s' : State) (e : Event) :
  step s e = Some s' ->
  replaced s' = replaced s ++ [pc_received Close (peerConnection s)] \/
  (exists target st,
     replaced s' = alter (set_iceConnectionState st) target (replaced s)) \/
  replaced s' = replaced s.
Proof.
  destruct e; unfold step; try (intros [= <-]).
  1-9, 11-12: right; right; apply exec_preserves; frame_handler.
  - left. apply leaveRoom_transport.
  - destruct (promises s !! p) as [pr|]; [| discriminate].
    destruct (settled pr); [discriminate |].
    destruct (reaction (attached pr) o) as [k|] eqn:Hk; [| discriminate].
    intros [= <-]. right; right.
    rewrite (exec_preserves replaced k _ (reaction_keeps_replaced _ _ _ Hk)).
    reflexivity.
  - destruct (pc_at s target) as [pc|]; [| discriminate].
    intros [= <-]. right; right.
    destruct (onicecandidate pc); [| reflexivity].
    apply exec_preserves; frame_handler.
  - destruct (pc_at s target) as [pc|]; [| discriminate].
    intros [= <-]. right; left. exists target, st.
    assert (Hset : replaced (browser_sets_ice_state target st s) =
                   alter (set_iceConnectionState st) target (replaced s)).
    { unfold browser_sets_ice_state, current_pc_id.
      destruct (decide (target = length (replaced s))) as [->|_];
        [| reflexivity].
      simpl. symmetry. apply alter_at_length. }
    destruct (oniceconnectionstatechange pc); [| exact Hset].
    rewrite <- Hset. apply exec_preserves; frame_handler.
  - destruct (pc_at s target) as [pc|]; [| discriminate].
    intros [= <-]. right; right.
    destruct (ontrack pc); [| reflexivity].
    apply exec_preserves; frame_handler.
Qed.

(** The user joins, is told of a peer, offers, and leaves.  The answer to
    that offer arrives after [leaveRoom] has made a new connection object:
    it is passed to [setRemoteDescription] on the new object. *)
Lemma C2_stale_answer_applied_after_leave :
  exists left after,
    run at_load
      [ClickJoin; Settle 0 (Fulfilled camera_and_microphone);
       RoomUsers ["peer"]; Settle 1 (Fulfilled (VDescription offer1));
       ClickLeave] = Some left /\
    peerConnection left = new_RTCPeerConnection /\
    current_pc_id left = 1 /\
    step left (GetAnswer answer1) = Some after /\
    current_pc_id after = 1 /\
    pc_calls (peerConnection after) = [SetRemoteDescription answer1].
Proof.
  eexists; eexists. split; [vm_compute; reflexivity |].
  split; [reflexivity |]. split; [reflexivity |].
  split; [vm_compute; reflexivity |]. split; reflexivity.
Qed.

(** C2, as the script has it.  There is no generation token.  What
    [leaveRoom] guarantees is that the closed connection object is never
    called again: no step adds a call to an object that was set aside.
    Every handler and every promise reaction acts on the object that is
    current when it runs, so after [leaveRoom] a late answer, a late
    candidate and a late [createOffer] result are all applied to the new
    connection object. *)
Theorem C2_late_results_act_on_current_transport (s : State) :
  (forall e s' i pc,
     step s e = Some s' -> replaced s !! i = Some pc ->
     exists pc', replaced s' !! i = Some pc' /\ pc_calls pc' = pc_calls pc)
  /\
  (let left := exec leaveRoom s in
   peerConnection left = new_RTCPeerConnection /\
   replaced left = replaced s ++ [pc_received Close (peerConnection s)] /\
   (forall sdp,
      pc_calls (peerConnection (exec (on_getAnswer sdp) left)) =
        [SetRemoteDescription sdp]) /\
   (forall c,
      pc_calls (peerConnection (exec (on_getCandidate c) left)) =
        [AddIceCandidate c]) /\
   (forall p sdp,
      pending_with OfferChain left p ->
      exists s',
        step left (Settle p (Fulfilled (VDescription sdp))) = Some s' /\
        pc_calls (peerConnection s') = [SetLocalDescription sdp] /\
        emitted s' = emitted s ++ [MOffer sdp])).
Proof.
  split.
  - intros e s' i pc Hstep Hi.
    destruct (step_replaced s s' e Hstep) as [-> | [(target & st & ->) | ->]].
    + exists pc. split; [| reflexivity].
      apply lookup_app_l_Some. exact Hi.
    + destruct (decide (target = i)) as [->|Hne].
      * exists (set_iceConnectionState st pc).
        rewrite list_lookup_alter_eq, Hi. split; reflexivity.
      * exists pc. rewrite list_lookup_alter_ne by exact Hne.
        split; [exact Hi | reflexivity].
    + exists pc. split; [exact Hi | reflexivity].
  - destruct (leaveRoom_transport s) as (Hpc & Hrep & Hem & Hprom).
    cbv zeta. set (left := exec leaveRoom s) in *. clearbody left.
    split; [exact Hpc |]. split; [exact Hrep |].
    split; [| split].
    + intros sdp.
      change (pc_calls (peerConnection (exec (on_getAnswer sdp) left)))
        with (pc_calls (peerConnection left) ++ [SetRemoteDescription sdp]).
      rewrite Hpc. reflexivity.
    + intros c.
      change (pc_calls (peerConnection (exec (on_getCandidate c) left)))
        with (pc_calls (peerConnection left) ++ [AddIceCandidate c]).
      rewrite Hpc. reflexivity.
    + intros p sdp Hp. eexists. split.
      * apply (settle_pending OfferChain); [exact Hp | reflexivity].
      * unfold createOffer_then. open_monad.
        cbn [peerConnection set_emitted set_promises set_peerConnection
             set_journal pc_calls pc_received emitted].
        rewrite Hpc, Hem. split; reflexivity.
Qed.

Lemma C2_late_results_witness :
  (exists pc',
     replaced (exec (on_getAnswer answer1) (exec leaveRoom at_load)) !! 0
       = Some pc' /\
     pc_calls pc' = [Close]) /\
  pc_calls (peerConnection (exec (on_getAnswer answer1)
                              (exec leaveRoom at_load)))
    = [SetRemoteDescription answer1].
Proof.
  split.
  - destruct (C2_late_results_act_on_current_transport
                (exec leaveRoom at_load)) as [Hold _].
    apply (Hold (GetAnswer answer1) _ 0
             (pc_received Close new_RTCPeerConnection));
      reflexivity.
  - destruct (C2_late_results_act_on_current_transport at_load)
      as [_ (_ & _ & Hans & _)].
    apply Hans.
Defined.

(** ** Offers and answers *)

(** A [createOffer] promise that fulfils: the description is given to
    [setLocalDescription], whose promise is dropped, and sent right away. *)
Lemma offer_chain_fulfilled (s : State) (p : nat) (sdp : Sdp) :
  pending_with OfferChain s p ->
  exists s',
    step s (Settle p (Fulfilled (VDescription sdp))) = Some s' /\
    pc_calls (peerConnection s') =
      pc_calls (peerConnection s) ++ [SetLocalDescription sdp] /\
    emitted s' = emitted s ++ [MOffer sdp] /\
    promises s' =
      alter (set_settled true) p (promises s) ++
        [{| origin := ByCall (SetLocalDescription sdp);
            attached := Unobserved; settled := false |}] /\
    dom s' = dom s /\
    journal s' =
      journal s ++
        [Called (current_pc_id s) (SetLocalDescription sdp); Sent (MOffer sdp)].
Proof.
  intros Hp. eexists. split.
  - apply (settle_pending OfferChain); [exact Hp | reflexivity].
  - repeat split. symmetry.
    exact (app_assoc (journal s)
             [Called (current_pc_id s) (SetLocalDescription sdp)]
             [Sent (MOffer sdp)]).
Qed.

(** The same for the [createAnswer] promise of the answer chain. *)
Lemma answer_chain_fulfilled (s : State) (p : nat) (sdp : Sdp) :
  pending_with AnswerChainCreated s p ->
  exists s',
    step s (Settle p (Fulfilled (VDescription sdp))) = Some s' /\
    pc_calls (peerConnection s') =
      pc_calls (peerConnection s) ++ [SetLocalDescription sdp] /\
    emitted s' = emitted s ++ [MAnswer sdp] /\
    promises s' =
      alter (set_settled true) p (promises s) ++
        [{| origin := ByCall (SetLocalDescription sdp);
            attached := Unobserved; settled := false |}] /\
    dom s' = dom s /\
    journal s' =
      journal s ++
        [Called (current_pc_id s) (SetLocalDescription sdp); Sent (MAnswer sdp)].
Proof.
  intros Hp. eexists. split.
  - apply (settle_pending AnswerChainCreated); [exact Hp | reflexivity].
  - repeat split. symmetry.
    exact (app_assoc (journal s)
             [Called (current_pc_id s) (SetLocalDescription sdp)]
             [Sent (MAnswer sdp)]).
Qed.

(** The user has joined, was told of a peer and has sent an offer that is
    not yet answered.  A second [room_users] with a member in it makes the
    script call [createOffer] again, and when that resolves a second offer
    is sent. *)
Lemma C3_second_room_users_offers_again :
  exists negotiating s2 s3,
    run at_load
      [ClickJoin; Settle 0 (Fulfilled camera_and_microphone);
       RoomUsers ["peer"]; Settle 1 (Fulfilled (VDescription offer1))]
      = Some negotiating /\
    emitted negotiating = [MJoin "1234" "user_k3j9x"; MOffer offer1] /\
    step negotiating (RoomUsers ["peer"]) = Some s2 /\
    List.filter (fun c => match c with CreateOffer _ _ => true | _ => false end)
      (pc_calls (peerConnection s2))
      = [CreateOffer true true; CreateOffer true true] /\
    step s2 (Settle 3 (Fulfilled (VDescription offer2))) = Some s3 /\
    emitted s3 =
      [MJoin "1234" "user_k3j9x"; MOffer offer1; MOffer offer2].
Proof.
  eexists; eexists; eexists.
  split; [vm_compute; reflexivity |]. split; [reflexivity |].
  split; [vm_compute; reflexivity |]. split; [reflexivity |].
  split; [vm_compute; reflexivity |]. reflexivity.
Qed.

(** C3, as the script has it.  There is no guard on the negotiation state:
    every [room_users] with a non-empty member list calls [createOffer] on
    the current connection, in whatever state the script is, and every
    [createOffer] that resolves sends one offer.  An empty member list calls
    nothing.  The handler itself sends nothing. *)
Theorem C3_every_nonempty_room_users_creates_an_offer
    (s : State) (data : list string) :
  let s' := exec (on_room_users data) s in
  step s (RoomUsers data) = Some s' /\
  emitted s' = emitted s /\
  (data <> [] ->
     pc_calls (peerConnection s') =
       pc_calls (peerConnection s) ++ [CreateOffer true true] /\
     promises s' =
       promises s ++
         [{| origin := ByCall (CreateOffer true true);
             attached := OfferChain; settled := false |}] /\
     forall sdp, exists s2,
       step s' (Settle (length (promises s)) (Fulfilled (VDescription sdp)))
         = Some s2 /\
       emitted s2 = emitted s ++ [MOffer sdp]) /\
  (data = [] ->
     peerConnection s' = peerConnection s /\ promises s' = promises s).
Proof.
  cbv zeta. split; [reflexivity |].
  destruct data as [|member data].
  - split; [reflexivity |]. split; [congruence |].
    intros _. split; reflexivity.
  - split; [reflexivity |]. split; [| discriminate].
    intros _. split; [reflexivity |]. split; [reflexivity |].
    intros sdp.
    destruct (offer_chain_fulfilled
                (exec (on_room_users (member :: data)) s)
                (length (promises s)) sdp)
      as (s2 & Hstep & _ & Hem & _).
    + eexists.
      change (promises (exec (on_room_users (member :: data)) s))
        with (promises s ++
                [{| origin := ByCall (CreateOffer true true);
                    attached := OfferChain; settled := false |}]).
      apply list_lookup_middle. reflexivity.
    + exists s2. split; [exact Hstep |]. exact Hem.
Qed.

Lemma C3_room_users_witness :
  pc_calls (peerConnection (exec (on_room_users ["peer"]) at_load))
    = [CreateOffer true true] /\
  peerConnection (exec (on_room_users []) at_load) = new_RTCPeerConnection.
Proof.
  split.
  - apply (C3_every_nonempty_room_users_creates_an_offer at_load ["peer"]).
    discriminate.
  - apply (C3_every_nonempty_room_users_creates_an_offer at_load []).
    reflexivity.
Defined.

Section Emits.
Context (P : Msg -> Prop).

Lemma emits_silent {B} (m : M B) : preserves emitted m -> emits_only P m.
Proof.
  intros Hm s. exists []. rewrite app_nil_r. split; [apply Hm | constructor].
Qed.

Lemma emits_emit (m : Msg) : P m -> emits_only P (socket_emit m).
Proof.
  intros Hm s. exists [m]. split; [reflexivity |].
  constructor; [exact Hm | constructor].
Qed.

Lemma emits_bind {B C} (m : M B) (k : B -> M C) :
  emits_only P m -> (forall b, emits_only P (k b)) ->
  emits_only P (m ≫= k).
Proof.
  intros Hm Hk s. unfold mbind, M_bind.
  destruct (Hm s) as (new1 & H1 & HP1).
  destruct (m s) as [b s1]. simpl in H1.
  destruct (Hk b s1) as (new2 & H2 & HP2).
  exists (new1 ++ new2). split.
  - rewrite H2, H1, app_assoc. reflexivity.
  - apply Forall_app. split; assumption.
Qed.
End Emits.

Ltac emits :=
  first
    [ solve [apply emits_silent; frame_handler]
    | apply emits_emit; exact I
    | apply emits_bind; [emits | intros ?; emits]
    | match goal with
      | |- emits_only _ (match ?x with _ => _ end) => destruct x; emits
      end ].

Lemma exec_emits (P : Msg -> Prop) (m : M unit) (s : State) :
  emits_only P m ->
  exists new, emitted (exec m s) = emitted s ++ new /\ Forall P new.
Proof. intros H. apply H. Qed.

(** Which steps send a description: only the fulfilment of a [createOffer]
    promise carrying the offer chain, and of a [createAnswer] promise of the
    answer chain. *)
Lemma step_sends (s s' : State) (e : Event) :
  step s e = Some s' ->
  (exists p sdp,
     e = Settle p (Fulfilled (VDescription sdp)) /\
     pending_with OfferChain s p) \/
  (exists p sdp,
     e = Settle p (Fulfilled (VDescription sdp)) /\
     pending_with AnswerChainCreated s p) \/
  (exists new,
     emitted s' = emitted s ++ new /\ Forall not_a_description new).
Proof.
  destruct e; unfold step; try (intros [= <-]).
  1-12: right; right; apply exec_emits.
  1-12: unfold on_connect, on_disconnect, on_connect_error, on_room_users,
          on_getOffer, on_getAnswer, on_getCandidate, on_user_exit,
          createOffer, createAnswer, init, leaveRoom, toggleVideo,
          toggleAudio; emits.
  - destruct (promises s !! p) as [[og r st]|] eqn:Hp; [| discriminate].
    cbn [settled attached]. destruct st; [discriminate |].
    destruct r, o as [[| |]|]; cbn [reaction]; try discriminate;
      intros [= <-].
    all: try (left; eexists; eexists; split; [reflexivity |];
              exists og; exact Hp).
    all: try (right; left; eexists; eexists; split; [reflexivity |];
              exists og; exact Hp).
    all: right; right;
      match goal with
      | |- context [exec ?k ?s0] => apply (exec_emits not_a_description k s0)
      end.
    all: unfold createOffer_catch, createAnswer_then_remote_set,
           createAnswer_catch, addIceCandidate_then, addIceCandidate_catch,
           init_resume, init_catch; emits.
  - destruct (pc_at s target) as [pc|]; [| discriminate].
    intros [= <-]. right; right.
    destruct (onicecandidate pc).
    + apply exec_emits. unfold icecandidate_handler. emits.
    + exists []. rewrite app_nil_r. split; [reflexivity | constructor].
  - destruct (pc_at s target) as [pc|]; [| discriminate].
    intros [= <-]. right; right.
    assert (Hset : emitted (browser_sets_ice_state target st s) = emitted s).
    { unfold browser_sets_ice_state.
      destruct (decide (target = current_pc_id s)); reflexivity. }
    destruct (oniceconnectionstatechange pc).
    + rewrite <- Hset. apply exec_emits. emits.
    + exists []. rewrite app_nil_r. split; [exact Hset | constructor].
  - destruct (pc_at s target) as [pc|]; [| discriminate].
    intros [= <-]. right; right.
    destruct (ontrack pc).
    + apply exec_emits. emits.
    + exists []. rewrite app_nil_r. split; [reflexivity | constructor].
Qed.

Lemma not_a_description_offer (sdp : Sdp) (new : list Msg) :
  Forall not_a_description new ->
  ~ (In (MOffer sdp) new \/ In (MAnswer sdp) new).
Proof.
  intros Hall [Hin | Hin];
    apply (proj1 (List.Forall_forall _ _) Hall) in Hin; exact Hin.
Qed.

(** The script has joined, is told of a peer, and [createOffer] resolves.
    After that one step the offer is already on the socket while the
    promise of [setLocalDescription] is still unsettled; when it is
    rejected afterwards the offer stays sent and the user is told
    nothing. *)
Lemma C4_offer_sent_while_local_description_pending :
  exists s s',
    run at_load
      [ClickJoin; Settle 0 (Fulfilled camera_and_microphone);
       RoomUsers ["peer"]; Settle 1 (Fulfilled (VDescription offer1))]
      = Some s /\
    emitted s = [MJoin "1234" "user_k3j9x"; MOffer offer1] /\
    promises s !! 2 =
      Some {| origin := ByCall (SetLocalDescription offer1);
              attached := Unobserved; settled := false |} /\
    step s (Settle 2 (Rejected invalid_state)) = Some s' /\
    emitted s' = [MJoin "1234" "user_k3j9x"; MOffer offer1] /\
    errorMsg_textContent (dom s') = "".
Proof.
  eexists; eexists.
  split; [vm_compute; reflexivity |]. split; [reflexivity |].
  split; [reflexivity |]. split; [vm_compute; reflexivity |].
  split; reflexivity.
Qed.

(** C4, as the script has it.  Whenever a step sends an offer or an answer,
    that step is the fulfilment of the [createOffer] (respectively
    [createAnswer]) promise with that description: the description is sent
    only after it has been created.  What the script does to the outside
    in that step is, in this order and nothing else: the call of
    [setLocalDescription] with the description on the current connection,
    then the send.  The promise of that call is the newest one, nothing is
    attached to it, and it is still unsettled when the description has
    been sent. *)
Theorem C4_description_sent_in_the_turn_that_sets_it
    (s s' : State) (e : Event) :
  step s e = Some s' ->
  exists new,
    emitted s' = emitted s ++ new /\
    forall sdp,
      In (MOffer sdp) new \/ In (MAnswer sdp) new ->
      (exists p,
         e = Settle p (Fulfilled (VDescription sdp)) /\
         (pending_with OfferChain s p /\ new = [MOffer sdp] \/
          pending_with AnswerChainCreated s p /\ new = [MAnswer sdp])) /\
      pc_calls (peerConnection s') =
        pc_calls (peerConnection s) ++ [SetLocalDescription sdp] /\
      promises s' !! length (promises s) =
        Some {| origin := ByCall (SetLocalDescription sdp);
                attached := Unobserved; settled := false |} /\
      journal s' =
        journal s ++
          Called (current_pc_id s) (SetLocalDescription sdp)
            :: (Sent <$> new).
Proof.
  intros Hstep.
  assert (Hnewest : forall (l : list Promise) p x,
            (alter (set_settled true) p l ++ [x]) !! length l = Some x).
  { intros l p x. apply list_lookup_middle. rewrite length_alter.
    reflexivity. }
  destruct (step_sends s s' e Hstep)
    as [(p & sdp & -> & Hp) | [(p & sdp & -> & Hp) | (new & Hem & Hnot)]].
  - destruct (offer_chain_fulfilled s p sdp Hp)
      as (s2 & Hstep2 & Hcalls & Hem & Hprom & _ & Hj).
    rewrite Hstep in Hstep2. injection Hstep2 as <-.
    exists [MOffer sdp]. split; [exact Hem |].
    intros sdp' [[[= <-] | []] | [[=] | []]].
    split; [exists p; split; [reflexivity | left; split; trivial] |].
    split; [exact Hcalls |].
    split; [rewrite Hprom; apply Hnewest | exact Hj].
  - destruct (answer_chain_fulfilled s p sdp Hp)
      as (s2 & Hstep2 & Hcalls & Hem & Hprom & _ & Hj).
    rewrite Hstep in Hstep2. injection Hstep2 as <-.
    exists [MAnswer sdp]. split; [exact Hem |].
    intros sdp' [[[=] | []] | [[= <-] | []]].
    split; [exists p; split; [reflexivity | right; split; trivial] |].
    split; [exact Hcalls |].
    split; [rewrite Hprom; apply Hnewest | exact Hj].
  - exists new. split; [exact Hem |].
    intros sdp Hin. destruct (not_a_description_offer sdp new Hnot Hin).
Qed.

Lemma C4_description_sent_witness :
  exists s' new,
    step (exec (on_room_users ["peer"]) at_load)
      (Settle 0 (Fulfilled (VDescription offer1))) = Some s' /\
    emitted s' = [] ++ new /\
    (In (MOffer offer1) new \/ In (MAnswer offer1) new) /\
    pc_calls (peerConnection s') =
      [CreateOffer true true; SetLocalDescription offer1] /\
    promises s' !! 1 =
      Some {| origin := ByCall (SetLocalDescription offer1);
              attached := Unobserved; settled := false |} /\
    journal s' =
      [Called 0 (CreateOffer true true);
       Called 0 (SetLocalDescription offer1); Sent (MOffer offer1)].
Proof.
  eexists.
  destruct (C4_description_sent_in_the_turn_that_sets_it
              (exec (on_room_users ["peer"]) at_load) _
              (Settle 0 (Fulfilled (VDescription offer1))) eq_refl)
    as (new & Hem & Hnew).
  exists new. split; [reflexivity |]. split; [exact Hem |].
  assert (Hnew1 : [MOffer offer1] = new) by (vm_compute in Hem; exact Hem).
  assert (Hin : In (MOffer offer1) new \/ In (MAnswer offer1) new).
  { left. rewrite <- Hnew1. left. reflexivity. }
  split; [exact Hin |].
  destruct (Hnew offer1 Hin) as (_ & Hcalls & Hprom & Hj).
  split; [exact Hcalls |]. split; [exact Hprom |].
  rewrite Hj, <- Hnew1. reflexivity.
Defined.

(** The script joined, offered and received the answer, which the browser
    accepted.  A second answer is handed to [setRemoteDescription] just
    like the first one. *)
Lemma C7_second_answer_is_applied_again :
  exists applied after,
    run at_load
      [ClickJoin; Settle 0 (Fulfilled camera_and_microphone);
       RoomUsers ["peer"]; Settle 1 (Fulfilled (VDescription offer1));
       GetAnswer answer1; Settle 3 (Fulfilled VUndefined)] = Some applied /\
    List.filter is_SetRemoteDescription (pc_calls (peerConnection applied))
      = [SetRemoteDescription answer1] /\
    step applied (GetAnswer answer2) = Some after /\
    List.filter is_SetRemoteDescription (pc_calls (peerConnection after))
      = [SetRemoteDescription answer1; SetRemoteDescription answer2] /\
    length (promises after) = S (length (promises applied)).
Proof.
  eexists; eexists.
  split; [vm_compute; reflexivity |]. split; [reflexivity |].
  split; [vm_compute; reflexivity |]. split; reflexivity.
Qed.

(** C7, as the script has it.  There is no guard: every [getAnswer], a
    second one included, calls [setRemoteDescription] on the current
    connection.  Nothing is attached to the promise of that call, so
    however it settles the page (and with it the error line) stays as it
    was, and nothing is sent. *)
Theorem C7_every_answer_is_applied_and_its_outcome_ignored
    (s : State) (sdp : Sdp) :
  let s' := exec (on_getAnswer sdp) s in
  step s (GetAnswer sdp) = Some s' /\
  pc_calls (peerConnection s') =
    pc_calls (peerConnection s) ++ [SetRemoteDescription sdp] /\
  promises s' =
    promises s ++
      [{| origin := ByCall (SetRemoteDescription sdp);
          attached := Unobserved; settled := false |}] /\
  dom s' = dom s /\
  emitted s' = emitted s /\
  forall o s'',
    step s' (Settle (length (promises s)) o) = Some s'' ->
    dom s'' = dom s /\ emitted s'' = emitted s /\
    peerConnection s'' = peerConnection s'.
Proof.
  cbv zeta. repeat (split; [reflexivity |]).
  intros o s''. unfold step.
  change (promises (exec (on_getAnswer sdp) s))
    with (promises s ++
            [{| origin := ByCall (SetRemoteDescription sdp);
                attached := Unobserved; settled := false |}]).
  rewrite list_lookup_middle by reflexivity.
  cbn [settled attached].
  destruct o as [[| |]|]; cbn [reaction]; try discriminate;
    intros [= <-]; repeat split.
Qed.

Lemma C7_every_answer_witness :
  exists s'',
    step (exec (on_getAnswer answer2) at_load)
      (Settle 0 (Rejected invalid_state)) = Some s'' /\
    dom s'' = a_page /\ emitted s'' = [] /\
    pc_calls (peerConnection s'') = [SetRemoteDescription answer2].
Proof.
  eexists. split; [vm_compute; reflexivity |].
  destruct (C7_every_answer_is_applied_and_its_outcome_ignored
              at_load answer2) as (_ & _ & _ & _ & _ & Hlate).
  destruct (Hlate (Rejected invalid_state) _ eq_refl) as (Hdom & Hem & Hpc).
  split; [exact Hdom |]. split; [exact Hem |]. reflexivity.
Defined.

(** ** The peer leaves *)

(** Answering an offer, when nothing fails: three calls on the current
    connection and one message. *)
Lemma answer_flow
    (s : State) (sdp answerSdp : Sdp) :
  let n := length (promises s) in
  exists s',
    run s [GetOffer sdp;
           Settle n (Fulfilled VUndefined);
           Settle (S n) (Fulfilled (VDescription answerSdp))] = Some s' /\
    pc_calls (peerConnection s') =
      pc_calls (peerConnection s) ++
        [SetRemoteDescription sdp; CreateAnswer true true;
         SetLocalDescription answerSdp] /\
    emitted s' = emitted s ++ [MAnswer answerSdp] /\
    dom s' = dom s /\
    replaced s' = replaced s /\
    localStream s' = localStream s.
Proof.
  cbv zeta.
  set (s1 := exec (on_getOffer sdp) s).
  assert (H1 : pending_with AnswerChainRemote s1 (length (promises s))).
  { eexists. unfold s1.
    change (promises (exec (on_getOffer sdp) s))
      with (promises s ++
              [{| origin := ByCall (SetRemoteDescription sdp);
                  attached := AnswerChainRemote; settled := false |}]).
    apply list_lookup_middle. reflexivity. }
  set (s2 := exec createAnswer_then_remote_set
               (set_promises
                  (alter (set_settled true) (length (promises s))
                     (promises s1)) s1)).
  assert (H2 : pending_with AnswerChainCreated s2 (S (length (promises s)))).
  { eexists. unfold s2.
    change (promises (exec createAnswer_then_remote_set ?t))
      with (promises t ++
              [{| origin := ByCall (CreateAnswer true true);
                  attached := AnswerChainCreated; settled := false |}]).
    apply list_lookup_middle.
    cbn [promises set_promises]. rewrite length_alter. unfold s1.
    change (promises (exec (on_getOffer sdp) s))
      with (promises s ++
              [{| origin := ByCall (SetRemoteDescription sdp);
                  attached := AnswerChainRemote; settled := false |}]).
    rewrite length_app. simpl. lia. }
  eexists. split.
  - cbn [run].
    change (step s (GetOffer sdp)) with (Some s1). cbn iota.
    rewrite (settle_pending AnswerChainRemote s1 _ (Fulfilled VUndefined)
               createAnswer_then_remote_set H1 eq_refl).
    fold s2.
    rewrite (settle_pending AnswerChainCreated s2 _
               (Fulfilled (VDescription answerSdp))
               (createAnswer_then_created answerSdp) H2 eq_refl).
    reflexivity.
  - unfold s2, s1. cbn [createAnswer_then_created].
    repeat split.
    change (pc_calls (peerConnection s) ++
              [SetRemoteDescription sdp; CreateAnswer true true;
               SetLocalDescription answerSdp])
      with (pc_calls (peerConnection s) ++
              [SetRemoteDescription sdp] ++ [CreateAnswer true true] ++
              [SetLocalDescription answerSdp]).
    rewrite !app_assoc. reflexivity.
Qed.


(** The script joined, answered a peer's offer and shows the peer's stream;
    then the peer leaves.  The video element is cleared, but the connection
    object is the same as before, with the departed peer's description
    still on it.  The next peer's offer is applied on top of it. *)
Example user_exit_then_next_offer :
  exists in_call after next,
    run at_load
      [ClickJoin; Settle 0 (Fulfilled camera_and_microphone);
       GetOffer offer1; Settle 1 (Fulfilled VUndefined);
       Settle 2 (Fulfilled (VDescription answer1));
       TrackEv 0 [remote_stream]] = Some in_call /\
    remoteVideo_srcObject (dom in_call) = Some remote_stream /\
    step in_call (UserExit "peer") = Some after /\
    remoteVideo_srcObject (dom after) = None /\
    peerConnection after = peerConnection in_call /\
    remote_description_requested (peerConnection after) = true /\
    step after (GetOffer offer2) = Some next /\
    current_pc_id next = current_pc_id in_call /\
    List.filter is_SetRemoteDescription (pc_calls (peerConnection next))
      = [SetRemoteDescription offer1; SetRemoteDescription offer2].
Proof.
  eexists; eexists; eexists.
  split; [vm_compute; reflexivity |]. split; [reflexivity |].
  split; [vm_compute; reflexivity |]. split; [reflexivity |].
  split; [reflexivity |]. split; [reflexivity |].
  split; [vm_compute; reflexivity |]. split; reflexivity.
Qed.


(** ** Connection status *)

(** After a successful join the handler is on the connection.  When the
    connection fails, the status class put on the page is the one of
    [disconnected] (only the label and the error line differ); when it goes
    to [checking], the page shows no new status at all and still reads
    "In Room". *)
Lemma C6_failed_is_shown_as_disconnected_and_checking_not_at_all :
  exists joined failed disconnected checking,
    run at_load [ClickJoin; Settle 0 (Fulfilled camera_and_microphone)]
      = Some joined /\
    oniceconnectionstatechange (peerConnection joined) = true /\
    step joined (IceConnectionStateChangeEv 0 "failed") = Some failed /\
    step joined (IceConnectionStateChangeEv 0 "disconnected")
      = Some disconnected /\
    connectionStatus_className (dom failed)
      = "connection-status disconnected" /\
    connectionStatus_className (dom disconnected)
      = "connection-status disconnected" /\
    step joined (IceConnectionStateChangeEv 0 "checking") = Some checking /\
    iceConnectionState (peerConnection checking) = "checking" /\
    dom checking = dom joined /\
    statusText_textContent (dom checking) = "In Room".
Proof.
  eexists; eexists; eexists; eexists.
  split; [vm_compute; reflexivity |]. split; [reflexivity |].
  split; [vm_compute; reflexivity |]. split; [vm_compute; reflexivity |].
  split; [reflexivity |]. split; [reflexivity |].
  split; [vm_compute; reflexivity |].
  split; [reflexivity |]. split; reflexivity.
Qed.

(** C6, as the script has it.  When the current connection, carrying the
    handler [init] installs, changes its connectivity state: [connected]
    shows class [connected] and label "Peer Connected"; [disconnected]
    shows class [disconnected] and label "Peer Disconnected"; [failed]
    shows class [disconnected] too, with label "Connection Failed" and an
    error line; for every other state the page is left as it was. *)
Theorem C6_status_shown_for_each_ice_state (s : State) (st : string) :
  oniceconnectionstatechange (peerConnection s) = true ->
  exists s',
    step s (IceConnectionStateChangeEv (current_pc_id s) st) = Some s' /\
    iceConnectionState (peerConnection s') = st /\
    (st = "connected" ->
       dom s' =
         set_statusText_textContent "Peer Connected"
           (set_connectionStatus_className "connection-status connected"
              (dom s))) /\
    (st = "disconnected" ->
       dom s' =
         set_statusText_textContent "Peer Disconnected"
           (set_connectionStatus_className "connection-status disconnected"
              (dom s))) /\
    (st = "failed" ->
       dom s' =
         set_errorMsg_textContent "Peer connection failed. Try rejoining."
           (set_statusText_textContent "Connection Failed"
              (set_connectionStatus_className
                 "connection-status disconnected" (dom s)))) /\
    (st <> "connected" -> st <> "disconnected" -> st <> "failed" ->
       dom s' = dom s).
Proof.
  intros Hon. eexists. split.
  - unfold step, pc_at, current_pc_id.
    rewrite list_lookup_middle by reflexivity. rewrite Hon.
    unfold browser_sets_ice_state, current_pc_id.
    rewrite decide_True by reflexivity. reflexivity.
  - unfold iceconnectionstatechange_handler. open_monad.
    cbn [peerConnection set_console set_peerConnection iceConnectionState
         set_iceConnectionState].
    destruct (String.eqb_spec st "connected") as [-> | Hc].
    { repeat split; intros; try discriminate; congruence. }
    destruct (String.eqb_spec st "disconnected") as [-> | Hd].
    { repeat split; intros; try discriminate; congruence. }
    destruct (String.eqb_spec st "failed") as [-> | Hf].
    { repeat split; intros; try discriminate; congruence. }
    repeat split; intros; congruence.
Qed.

Lemma C6_status_shown_witness :
  run at_load [ClickJoin; Settle 0 (Fulfilled camera_and_microphone)]
    = Some after_join /\
  exists s',
    step after_join (IceConnectionStateChangeEv 0 "connected") = Some s' /\
    connectionStatus_className (dom s') = "connection-status connected" /\
    statusText_textContent (dom s') = "Peer Connected".
Proof.
  split; [vm_compute; reflexivity |].
  destruct (C6_status_shown_for_each_ice_state after_join "connected"
              eq_refl)
    as (s' & Hstep & _ & Hconnected & _).
  exists s'. split; [exact Hstep |].
  rewrite (Hconnected eq_refl). split; reflexivity.
Defined.

(** * Further properties of the script *)

(** ** Invariants of the machine *)

Section Keeps.
Context (I : State -> Prop).

Lemma keeps_ret {B} (b : B) : keeps I (mret b).
Proof. intros s H. exact H. Qed.

Lemma keeps_gets {B} (g : State -> B) : keeps I (gets g).
Proof. intros s H. exact H. Qed.

Lemma keeps_modify (g : State -> State) :
  (forall s, I s -> I (g s)) -> keeps I (modify g).
Proof. intros Hg s. apply Hg. Qed.

Lemma keeps_bind {B C} (m : M B) (k : B -> M C) :
  keeps I m -> (forall b, keeps I (k b)) -> keeps I (m ≫= k).
Proof.
  intros Hm Hk s Hs. unfold mbind, M_bind.
  specialize (Hm s Hs). destruct (m s) as [b s1]. simpl in *.
  apply Hk. exact Hm.
Qed.

Lemma keeps_forEach {B} (xs : list B) (h : B -> M unit) :
  (forall x, keeps I (h x)) -> keeps I (forEach xs h).
Proof.
  intros Hh. induction xs as [|x xs IH]; simpl.
  - apply keeps_ret.
  - apply keeps_bind; [apply Hh | intros _; exact IH].
Qed.

(** A property read off an observation [f] is kept by whatever leaves [f]
    alone. *)
Lemma keeps_preserved {A B} (f : State -> A) (m : M B) :
  (forall s s', f s' = f s -> I s -> I s') ->
  preserves f m -> keeps I m.
Proof. intros Hf Hm s Hs. apply (Hf s); [apply Hm | exact Hs]. Qed.
End Keeps.

(** One step of the machine: the browser changes what is its own, then one
    piece of the script runs to completion. *)
Ltac code :=
  lazymatch goal with
  | |- script_code on_connect => exact code_on_connect
  | |- script_code on_disconnect => exact code_on_disconnect
  | |- script_code (on_connect_error _) => apply code_on_connect_error
  | |- script_code (on_room_users _) => apply code_on_room_users
  | |- script_code (on_getOffer _) => apply code_on_getOffer
  | |- script_code (on_getAnswer _) => apply code_on_getAnswer
  | |- script_code (on_getCandidate _) => apply code_on_getCandidate
  | |- script_code (on_user_exit _) => apply code_on_user_exit
  | |- script_code init => exact code_init
  | |- script_code leaveRoom => exact code_leaveRoom
  | |- script_code toggleVideo => exact code_toggleVideo
  | |- script_code toggleAudio => exact code_toggleAudio
  | |- script_code (createOffer_then _) => apply code_createOffer_then
  | |- script_code (createOffer_catch _) => apply code_createOffer_catch
  | |- script_code createAnswer_then_remote_set =>
      exact code_createAnswer_then_remote_set
  | |- script_code (createAnswer_then_created _) =>
      apply code_createAnswer_then_created
  | |- script_code (createAnswer_catch _) => apply code_createAnswer_catch
  | |- script_code addIceCandidate_then => exact code_addIceCandidate_then
  | |- script_code (addIceCandidate_catch _) =>
      apply code_addIceCandidate_catch
  | |- script_code (init_catch _) => apply code_init_catch
  | |- script_code (icecandidate_handler _) =>
      apply code_icecandidate_handler
  | |- script_code iceconnectionstatechange_handler =>
      exact code_iceconnectionstatechange_handler
  | |- script_code (track_handler _) => apply code_track_handler
  | |- script_code (mret tt) => exact code_nothing
  | |- script_code (_ ≫= _) => apply code_init_resume
  end.

Ltac one_step s0 :=
  exists s0; eexists; refine (conj _ (conj _ eq_refl)); [constructor | code].

Lemma step_runs (s s' : State) (e : Event) :
  step s e = Some s' ->
  exists s0 h, browser_change s s0 /\ script_code h /\ s' = exec h s0.
Proof.
  destruct e; unfold step; try (intros [= <-]).
  1-12: one_step s.
  - destruct (promises s !! p) as [[og r st]|]; [| discriminate].
    cbn [settled attached]. destruct st; [discriminate |].
    destruct r, o as [[| |]|]; cbn [reaction]; try discriminate;
      intros [= <-];
      one_step (set_promises (alter (set_settled true) p (promises s)) s).
  - destruct (pc_at s target) as [pc|]; [| discriminate].
    intros [= <-].
    destruct (onicecandidate pc);
      [ one_step s | exists s, (mret tt); repeat split; constructor ].
  - destruct (pc_at s target) as [pc|]; [| discriminate].
    intros [= <-].
    destruct (oniceconnectionstatechange pc);
      [ one_step (browser_sets_ice_state target st s)
      | exists (browser_sets_ice_state target st s), (mret tt);
        repeat split; constructor ].
  - destruct (pc_at s target) as [pc|]; [| discriminate].
    intros [= <-].
    destruct (ontrack pc);
      [ one_step s | exists s, (mret tt); repeat split; constructor ].
Qed.

(** What the script keeps and the browser keeps holds in every reachable
    state. *)
Lemma reachable_invariant (I : State -> Prop) (d : Dom) (rnd : nat -> string) :
  I (page_load d rnd) ->
  (forall h, script_code h -> keeps I h) ->
  (forall s s0, browser_change s s0 -> I s -> I s0) ->
  forall s, reachable d rnd s -> I s.
Proof.
  intros Hload Hcode Hbrowser s Hreach.
  induction Hreach as [|s e s' _ IH Hstep]; [exact Hload |].
  destruct (step_runs s s' e Hstep) as (s0 & h & Hb & Hh & ->).
  apply (Hcode h Hh). apply (Hbrowser s s0 Hb IH).
Qed.

Ltac unfold_script :=
  unfold on_connect, on_disconnect, on_connect_error, on_room_users,
    on_getOffer, on_getAnswer, on_getCandidate, on_user_exit, createOffer,
    createOffer_then, createOffer_catch, createAnswer,
    createAnswer_then_remote_set, createAnswer_then_created,
    createAnswer_catch, addIceCandidate_then, addIceCandidate_catch,
    icecandidate_handler, iceconnectionstatechange_handler, track_handler,
    init, init_resume, init_catch, toggleVideo, toggleAudio;
  unfold modify_dom, console_log, console_error, socket_emit, pc_call,
    promise, pc_async, track_stop, track_set_enabled, getVideoTracks,
    getAudioTracks, updateConnectionStatus, showError, clearError.

(** [side] proves [I (g s)] from [I s] for one write [g] of the script. *)
Ltac keeps_with side :=
  unfold_script;
  repeat first
    [ apply keeps_ret
    | apply keeps_gets
    | apply keeps_bind; [| intros ?]
    | apply keeps_forEach; intros ?
    | match goal with
      | |- keeps _ (match ?x with _ => _ end) => destruct x
      end
    | apply keeps_modify; intros ? ?; side
    | intros ? ?; side ].

Lemma run_reachable (d : Dom) (rnd : nat -> string) (es : list Event)
    (s s' : State) :
  reachable d rnd s -> run s es = Some s' -> reachable d rnd s'.
Proof.
  revert s. induction es as [|e es IH]; intros s Hs; simpl.
  - intros [= <-]. exact Hs.
  - destruct (step s e) as [s1|] eqn:Hstep; [| discriminate].
    apply IH. apply (reach_step d rnd s e s1 Hs Hstep).
Qed.

Ltac close_side :=
  idtac;
  match goal with
  | H : no_call_after_close _ |- _ =>
      destruct H as [Hc Hr]; split;
      [ first
          [ exact Hc
          | apply not_elem_of_app; split;
            [ exact Hc
            | apply not_elem_of_cons; split;
              [ discriminate | apply not_elem_of_nil ] ] ]
      | exact Hr ]
  end.

Lemma script_keeps_no_call_after_close (h : M unit) :
  script_code h -> keeps no_call_after_close h.
Proof.
  destruct 1;
    lazymatch goal with
    | |- keeps _ leaveRoom => idtac
    | _ => solve [keeps_with close_side]
    end.
  intros s [Hc Hr].
  destruct (leaveRoom_transport s) as (Hpc & Hrep & _).
  unfold exec in Hpc, Hrep. unfold no_call_after_close.
  rewrite Hpc, Hrep. split.
  - apply not_elem_of_nil.
  - apply Forall_app. split; [exact Hr |].
    apply Forall_singleton. exists (pc_calls (peerConnection s)).
    split; [reflexivity | exact Hc].
Qed.

Lemma browser_keeps_no_call_after_close (s s0 : State) :
  browser_change s s0 -> no_call_after_close s -> no_call_after_close s0.
Proof.
  intros [| p | target st] [Hc Hr]; [split; assumption | split; assumption |].
  unfold browser_sets_ice_state.
  destruct (decide (target = current_pc_id s)); split; try assumption.
  cbn [replaced set_replaced]. apply Forall_alter; [exact Hr |].
  intros pc _ Hpc. exact Hpc.
Qed.

(** X1.  The script never calls a connection it has closed.  In every
    state the page can reach, the current connection has never received
    [close()], and every connection object that was set aside received
    [close()] exactly once, as its very last call. *)
Theorem closed_connection_is_never_called
    (d : Dom) (rnd : nat -> string) (s : State) :
  reachable d rnd s -> no_call_after_close s.
Proof.
  apply reachable_invariant.
  - split; [apply not_elem_of_nil | constructor].
  - apply script_keeps_no_call_after_close.
  - apply browser_keeps_no_call_after_close.
Qed.

Lemma closed_connection_is_never_called_witness :
  exists s,
    run at_load
      [ClickJoin; Settle 0 (Fulfilled camera_and_microphone);
       RoomUsers ["peer"]; Settle 1 (Fulfilled (VDescription offer1));
       ClickLeave; GetAnswer answer1] = Some s /\
    no_call_after_close s.
Proof.
  eexists. split; [vm_compute; reflexivity |].
  apply (closed_connection_is_never_called a_page (fun _ => "k3j9x")).
  apply (run_reachable _ _
           [ClickJoin; Settle 0 (Fulfilled camera_and_microphone);
            RoomUsers ["peer"]; Settle 1 (Fulfilled (VDescription offer1));
            ClickLeave; GetAnswer answer1] (page_load a_page (fun _ => "k3j9x")));
    [apply reach_load | vm_compute; reflexivity].
Defined.

Ltac status_side :=
  idtac;
  match goal with
  | H : known_status_class _ _ |- _ =>
      destruct H as [H | [H | H]];
      first
        [ left; exact H
        | right; left; exact H
        | right; right; exact H
        | right; left; reflexivity
        | right; right; reflexivity ]
  end.

Lemma script_keeps_known_status_class (d : Dom) (h : M unit) :
  script_code h -> keeps (known_status_class d) h.
Proof. destruct 1; unfold leaveRoom; solve [keeps_with status_side]. Qed.

(** X2.  The only status classes the script ever puts on the page are
    [connected] and [disconnected]: in every reachable state the class of
    the status element is the one the page was loaded with or one of these
    two.  No other code (connecting, failed) is ever shown. *)
Theorem status_class_is_connected_or_disconnected
    (d : Dom) (rnd : nat -> string) (s : State) :
  reachable d rnd s -> known_status_class d s.
Proof.
  apply reachable_invariant.
  - left. reflexivity.
  - apply script_keeps_known_status_class.
  - intros s1 s0 [| p | target st] H; try exact H.
    unfold browser_sets_ice_state.
    destruct (decide (target = current_pc_id s1)); exact H.
Qed.

Lemma status_class_witness :
  exists s,
    run at_load
      [SocketConnect; ClickJoin;
       Settle 0 (Fulfilled camera_and_microphone);
       IceConnectionStateChangeEv 0 "failed"] = Some s /\
    known_status_class a_page s.
Proof.
  eexists. split; [vm_compute; reflexivity |].
  apply (status_class_is_connected_or_disconnected a_page (fun _ => "k3j9x")).
  apply (run_reachable _ _
           [SocketConnect; ClickJoin;
            Settle 0 (Fulfilled camera_and_microphone);
            IceConnectionStateChangeEv 0 "failed"]
           (page_load a_page (fun _ => "k3j9x")));
    [apply reach_load | vm_compute; reflexivity].
Defined.

(** ** The socket's own events (client.js 44-58) *)

(** X3.  The three events of the socket's life write the status, log one
    line on the console, and [connect_error] writes the error line as
    well; that is all they do.  The states after them are given in full:
    the connection, the objects set aside, the local stream, the tracks,
    the flags, the pending promises and the messages sent are as before, so
    losing the relay does not tear the call down.  [connect] does not clear
    the error line: after a failed and then successful connection the page
    reads "Connected" and still shows the connection error. *)
Theorem socket_events_only_write_status (s : State) (error : JsError) :
  let c := exec on_connect s in
  let d := exec on_disconnect s in
  let f := exec (on_connect_error error) s in
  let r := exec on_connect f in
  (c =
     set_dom
       (set_statusText_textContent "Connected"
          (set_connectionStatus_className "connection-status connected"
             (dom s)))
       (set_console (console s ++ ["Connected to signaling server!"]) s) /\
   d =
     set_dom
       (set_statusText_textContent "Disconnected"
          (set_connectionStatus_className "connection-status disconnected"
             (dom s)))
       (set_console (console s ++ ["Disconnected from signaling server"])
          s) /\
   f =
     set_dom
       (set_errorMsg_textContent
          "Cannot connect to server. Make sure the signaling server is running."
          (set_statusText_textContent "Connection Failed"
             (set_connectionStatus_className
                "connection-status disconnected" (dom s))))
       (set_console (console s ++ ["Connection error:"]) s)) /\
  (peerConnection c = peerConnection s /\ peerConnection d = peerConnection s
   /\ peerConnection f = peerConnection s) /\
  (localStream c = localStream s /\ localStream d = localStream s
   /\ localStream f = localStream s) /\
  (tracks c = tracks s /\ tracks d = tracks s /\ tracks f = tracks s) /\
  (replaced c = replaced s /\ replaced d = replaced s
   /\ replaced f = replaced s) /\
  (promises c = promises s /\ promises d = promises s
   /\ promises f = promises s) /\
  (emitted c = emitted s /\ emitted d = emitted s /\ emitted f = emitted s) /\
  errorMsg_textContent (dom c) = errorMsg_textContent (dom s) /\
  errorMsg_textContent (dom d) = errorMsg_textContent (dom s) /\
  run s [SocketConnectError error; SocketConnect] = Some r /\
  connectionStatus_className (dom r) = "connection-status connected" /\
  statusText_textContent (dom r) = "Connected" /\
  errorMsg_textContent (dom r) =
    "Cannot connect to server. Make sure the signaling server is running.".
Proof. cbv zeta. repeat split. Qed.

(** ** Local candidates and remote tracks (client.js 154-159, 180-184) *)

Lemma current_pc_at (s : State) :
  pc_at s (current_pc_id s) = Some (peerConnection s).
Proof. unfold pc_at, current_pc_id. apply list_lookup_middle. reflexivity. Qed.

(** X4.  Once [init] has put its handler on the current connection, every
    candidate the connection produces is sent on the socket as soon as it
    is produced, in the order produced, with one console line each; the
    null candidate that ends the gathering is not sent.  Nothing else
    changes: the connection, the objects set aside, the local stream, the
    tracks, the flags, the promises and the page are as before. *)
Theorem local_candidates_are_trickled_in_order
    (cs : list (option Candidate)) (s : State) :
  onicecandidate (peerConnection s) = true ->
  exists s',
    run s (IceCandidateEv (current_pc_id s) <$> cs) = Some s' /\
    emitted s' = emitted s ++ (MCandidate <$> omap id cs) /\
    peerConnection s' = peerConnection s /\
    replaced s' = replaced s /\
    promises s' = promises s /\
    dom s' = dom s /\
    localStream s' = localStream s /\
    tracks s' = tracks s /\
    isVideoEnabled s' = isVideoEnabled s /\
    isAudioEnabled s' = isAudioEnabled s /\
    random_drawn s' = random_drawn s /\
    console s' =
      console s ++ ((fun _ => "Sending ICE candidate") <$> omap id cs) /\
    journal s' =
      journal s ++ ((fun c => Sent (MCandidate c)) <$> omap id cs).
Proof.
  revert s. induction cs as [|c cs IH]; intros s Hon.
  - exists s. rewrite !app_nil_r. repeat split.
  - rewrite fmap_cons. cbn [run]. unfold step at 1.
    rewrite current_pc_at, Hon.
    destruct (IH (exec (icecandidate_handler c) s))
      as (s' & Hrun & Hem & Hpc & Hrep & Hprom & Hdom & Hls & Htr & Hv & Ha
          & Hrnd & Hcon & Hj).
    { destruct c; exact Hon. }
    exists s'. split.
    + replace (current_pc_id s)
        with (current_pc_id (exec (icecandidate_handler c) s))
        by (destruct c; reflexivity).
      exact Hrun.
    + rewrite Hem, Hpc, Hrep, Hprom, Hdom, Hls, Htr, Hv, Ha, Hrnd, Hcon, Hj.
      destruct c as [c|]; [| repeat split].
      change (omap id (Some c :: cs)) with (c :: omap id cs).
      rewrite !fmap_cons.
      change (emitted (exec (icecandidate_handler (Some c)) s))
        with (emitted s ++ [MCandidate c]).
      change (console (exec (icecandidate_handler (Some c)) s))
        with (console s ++ ["Sending ICE candidate"]).
      change (journal (exec (icecandidate_handler (Some c)) s))
        with (journal s ++ [Sent (MCandidate c)]).
      rewrite <- !app_assoc. repeat split.
Qed.

Lemma local_candidates_witness :
  exists s',
    run after_join
      [IceCandidateEv 0 (Some "candidate:a"); IceCandidateEv 0 (Some "candidate:b");
       IceCandidateEv 0 None] = Some s' /\
    emitted s' =
      [MJoin "1234" "user_k3j9x"; MCandidate "candidate:a";
       MCandidate "candidate:b"].
Proof.
  destruct (local_candidates_are_trickled_in_order
              [Some "candidate:a"; Some "candidate:b"; None] after_join
              eq_refl)
    as (s' & Hrun & Hem & _).
  exists s'. split; [exact Hrun | exact Hem].
Defined.

(** X5.  A remote track shows the first stream of the event and hides the
    placeholder; when the peer then leaves, the video is cleared and the
    placeholder is shown again.  When the event names no stream, the video
    element gets none, the placeholder is hidden all the same, and the
    peer's leaving does not bring it back (the handler of [user_exit] only
    acts when the video element has a stream). *)
Theorem remote_track_then_user_exit
    (s : State) (streams : list MediaStream) (id : string) :
  ontrack (peerConnection s) = true ->
  exists s1 s2,
    step s (TrackEv (current_pc_id s) streams) = Some s1 /\
    remoteVideo_srcObject (dom s1) = head streams /\
    remotePlaceholder_hidden (dom s1) = true /\
    step s1 (UserExit id) = Some s2 /\
    remoteVideo_srcObject (dom s2) = None /\
    remotePlaceholder_hidden (dom s2) =
      match streams with [] => true | _ :: _ => false end /\
    peerConnection s2 = peerConnection s /\
    localStream s2 = localStream s /\
    emitted s2 = emitted s.
Proof.
  intros Hon. eexists; eexists.
  split. { unfold step. rewrite current_pc_at, Hon. reflexivity. }
  split; [reflexivity |]. split; [reflexivity |].
  split; [reflexivity |].
  destruct streams as [|stream streams]; repeat split.
Qed.

Lemma remote_track_witness :
  exists s1 s2,
    step after_join (TrackEv 0 []) = Some s1 /\
    step s1 (UserExit "peer") = Some s2 /\
    remoteVideo_srcObject (dom s2) = None /\
    remotePlaceholder_hidden (dom s2) = true.
Proof.
  destruct (remote_track_then_user_exit after_join [] "peer" eq_refl)
    as (s1 & s2 & H1 & _ & _ & H2 & Hv & Hp & _).
  exists s1, s2. repeat split; assumption.
Defined.

(** ** When the negotiation fails (client.js 100-103, 120-123) *)

(** X6.  When [createOffer] rejects, the page shows "Failed to create connection
    offer"; when the [setRemoteDescription] or the [createAnswer] of the
    answer chain rejects, it shows "Failed to establish connection".  In
    all three cases nothing is sent, the connection receives no further
    call, and apart from the error line the page, the local stream and the
    flags stay as they were: the call is not torn down and the status is
    not changed. *)
Theorem negotiation_failure_is_shown_and_nothing_sent
    (s : State) (p : nat) (error : JsError) (r : Reaction) :
  pending_with r s p ->
  r = OfferChain \/ r = AnswerChainRemote \/ r = AnswerChainCreated ->
  exists s',
    step s (Settle p (Rejected error)) = Some s' /\
    dom s' =
      set_errorMsg_textContent
        (match r with
         | OfferChain => "Failed to create connection offer"
         | _ => "Failed to establish connection"
         end) (dom s) /\
    emitted s' = emitted s /\
    peerConnection s' = peerConnection s /\
    localStream s' = localStream s /\
    tracks s' = tracks s /\
    promises s' = alter (set_settled true) p (promises s).
Proof.
  intros Hp [-> | [-> | ->]]; eexists.
  - split;
      [ apply (settle_pending OfferChain s p (Rejected error)
                 (createOffer_catch error)); [exact Hp | reflexivity]
      | repeat split ].
  - split;
      [ apply (settle_pending AnswerChainRemote s p (Rejected error)
                 (createAnswer_catch error)); [exact Hp | reflexivity]
      | repeat split ].
  - split;
      [ apply (settle_pending AnswerChainCreated s p (Rejected error)
                 (createAnswer_catch error)); [exact Hp | reflexivity]
      | repeat split ].
Qed.

Lemma negotiation_failure_witness :
  exists s',
    step (exec (on_getOffer offer1) after_join)
      (Settle 1 (Rejected invalid_state)) = Some s' /\
    errorMsg_textContent (dom s') = "Failed to establish connection" /\
    emitted s' = [MJoin "1234" "user_k3j9x"].
Proof.
  destruct (negotiation_failure_is_shown_and_nothing_sent
              (exec (on_getOffer offer1) after_join) 1 invalid_state
              AnswerChainRemote)
    as (s' & Hstep & Hdom & Hem & _).
  - eexists. reflexivity.
  - right; left; reflexivity.
  - exists s'. split; [exact Hstep |]. rewrite Hdom, Hem.
    split; reflexivity.
Defined.

(** ** Answering an offer (client.js 67-70, 106-124) *)

(** X7.  An incoming offer, answered without failure, makes the script call on
    the current connection, in this order, [setRemoteDescription] with the
    offer, [createAnswer] asking to receive audio and video, and
    [setLocalDescription] with the answer created; exactly one message is
    sent, the answer.  The page is not touched. *)
Theorem offer_is_answered_in_three_calls
    (s : State) (sdp answerSdp : Sdp) :
  let n := length (promises s) in
  exists s',
    run s [GetOffer sdp;
           Settle n (Fulfilled VUndefined);
           Settle (S n) (Fulfilled (VDescription answerSdp))] = Some s' /\
    pc_calls (peerConnection s') =
      pc_calls (peerConnection s) ++
        [SetRemoteDescription sdp; CreateAnswer true true;
         SetLocalDescription answerSdp] /\
    emitted s' = emitted s ++ [MAnswer answerSdp] /\
    dom s' = dom s /\
    replaced s' = replaced s /\
    localStream s' = localStream s.
Proof. exact (answer_flow s sdp answerSdp). Qed.

(** ** A successful join (client.js 133-192) *)

(** Adding the tracks of a stream: the connection receives one [addTrack]
    per track, in the order of the stream, and nothing else changes. *)
Lemma forEach_addTrack (ts : list TrackRef) (st : MediaStream) (s : State) :
  exists pc j,
    forEach ts (fun track => pc_call (AddTrack track st)) s
      = (tt, set_journal j (set_peerConnection pc s)) /\
    pc_calls pc =
      pc_calls (peerConnection s) ++ ((fun t => AddTrack t st) <$> ts) /\
    iceConnectionState pc = iceConnectionState (peerConnection s) /\
    onicecandidate pc = onicecandidate (peerConnection s) /\
    oniceconnectionstatechange pc
      = oniceconnectionstatechange (peerConnection s) /\
    ontrack pc = ontrack (peerConnection s) /\
    j = journal s ++
          ((fun t => Called (current_pc_id s) (AddTrack t st)) <$> ts).
Proof.
  revert s. induction ts as [|t ts IH]; intros s.
  - exists (peerConnection s), (journal s). rewrite !fmap_nil, !app_nil_r.
    split; [destruct s; reflexivity | repeat split].
  - destruct (IH (set_journal
                    (journal s ++ [Called (current_pc_id s) (AddTrack t st)])
                    (set_peerConnection
                       (pc_received (AddTrack t st) (peerConnection s)) s)))
      as (pc & j & Heq & Hcalls & Hice & H1 & H2 & H3 & Hj).
    exists pc, j. split.
    + simpl. unfold mbind, M_bind, pc_call at 1, modify.
      rewrite Heq. reflexivity.
    + rewrite Hcalls, Hice, H1, H2, H3, Hj, !fmap_cons.
      cbn [peerConnection set_peerConnection set_journal journal pc_calls
           pc_received iceConnectionState onicecandidate
           oniceconnectionstatechange ontrack].
      rewrite <- !app_assoc. repeat split.
Qed.

(** Normalising a state built by a handler: the monad, the field updates
    and the projections are computed away. *)
Tactic Notation "normal_state" :=
  cbv beta iota zeta delta
    [exec mbind M_bind mret M_ret gets modify modify_dom receive_stream
     init_resume socket_emit Math_random updateConnectionStatus showError
     clearError console_log console_error fst snd
     set_localStream set_isVideoEnabled set_isAudioEnabled
     set_peerConnection set_dom set_replaced set_tracks set_promises
     set_emitted set_console set_random_drawn set_journal
     set_localVideo_srcObject set_remoteVideo_srcObject
     set_localPlaceholder_hidden set_remotePlaceholder_hidden
     set_joinBtn_disabled set_leaveBtn_disabled set_toggleVideoBtn
     set_toggleAudioBtn set_connectionStatus_className
     set_statusText_textContent set_errorMsg_textContent
     set_tb_disabled set_tb_muted set_icons
     set_onicecandidate set_oniceconnectionstatechange set_ontrack
     set_iceConnectionState pc_received
     localStream isVideoEnabled isAudioEnabled peerConnection dom replaced
     tracks promises emitted console random_source random_drawn journal
     localVideo_srcObject remoteVideo_srcObject localPlaceholder_hidden
     remotePlaceholder_hidden joinBtn_disabled leaveBtn_disabled
     toggleVideoBtn toggleAudioBtn connectionStatus_className
     statusText_textContent errorMsg_textContent tb_disabled tb_muted
     icon_on_display icon_off_display
     pc_calls iceConnectionState onicecandidate oniceconnectionstatechange
     ontrack stream_tracks].
Tactic Notation "normal_state" "in" hyp(H) :=
  cbv beta iota zeta delta
    [set_localStream set_isVideoEnabled set_isAudioEnabled
     set_peerConnection set_dom set_replaced set_tracks set_promises
     set_emitted set_console set_random_drawn set_journal
     set_localVideo_srcObject set_remoteVideo_srcObject
     set_localPlaceholder_hidden set_remotePlaceholder_hidden
     set_joinBtn_disabled set_leaveBtn_disabled set_toggleVideoBtn
     set_toggleAudioBtn set_connectionStatus_className
     set_statusText_textContent set_errorMsg_textContent
     set_tb_disabled set_tb_muted set_icons
     set_onicecandidate set_oniceconnectionstatechange set_ontrack
     set_iceConnectionState pc_received
     localStream isVideoEnabled isAudioEnabled peerConnection dom replaced
     tracks promises emitted console random_source random_drawn journal
     localVideo_srcObject remoteVideo_srcObject localPlaceholder_hidden
     remotePlaceholder_hidden joinBtn_disabled leaveBtn_disabled
     toggleVideoBtn toggleAudioBtn connectionStatus_className
     statusText_textContent errorMsg_textContent tb_disabled tb_muted
     icon_on_display icon_off_display
     pc_calls iceConnectionState onicecandidate oniceconnectionstatechange
     ontrack stream_tracks] in H.

(** What the rest of [init] does once the stream is there. *)
Lemma init_resume_effect (id : string) (fresh : list MediaStreamTrack)
    (s : State) :
  let stream :=
    {| stream_id := id;
       stream_tracks := seq (length (tracks s)) (length fresh) |} in
  let s' := exec (stream ← receive_stream id fresh; init_resume stream) s in
  (localStream s' = Some stream /\
   tracks s' = tracks s ++ fresh /\
   isVideoEnabled s' = isVideoEnabled s /\
   isAudioEnabled s' = isAudioEnabled s /\
   replaced s' = replaced s /\
   promises s' = promises s) /\
  (pc_calls (peerConnection s') =
     pc_calls (peerConnection s) ++
       ((fun t => AddTrack t stream) <$> stream_tracks stream) /\
   onicecandidate (peerConnection s') = true /\
   oniceconnectionstatechange (peerConnection s') = true /\
   ontrack (peerConnection s') = true /\
   iceConnectionState (peerConnection s')
     = iceConnectionState (peerConnection s)) /\
  (emitted s' =
     emitted s ++
       [MJoin "1234" ("user_" +:+ random_source s (random_drawn s))] /\
   random_drawn s' = S (random_drawn s)) /\
  (localVideo_srcObject (dom s') = Some stream /\
   localPlaceholder_hidden (dom s') = true /\
   joinBtn_disabled (dom s') = true /\
   leaveBtn_disabled (dom s') = false /\
   tb_disabled (toggleVideoBtn (dom s')) = false /\
   tb_disabled (toggleAudioBtn (dom s')) = false /\
   connectionStatus_className (dom s') = "connection-status connected" /\
   statusText_textContent (dom s') = "In Room" /\
   errorMsg_textContent (dom s') = errorMsg_textContent (dom s) /\
   remoteVideo_srcObject (dom s') = remoteVideo_srcObject (dom s) /\
   tb_muted (toggleVideoBtn (dom s')) = tb_muted (toggleVideoBtn (dom s)) /\
   tb_muted (toggleAudioBtn (dom s')) = tb_muted (toggleAudioBtn (dom s))).
Proof.
  cbv zeta. normal_state.
  match goal with
  | |- context [forEach ?ts (fun track => pc_call (AddTrack track ?st)) ?s0] =>
      destruct (forEach_addTrack ts st s0)
        as (pc & j & -> & Hcalls & Hice & H1 & H2 & H3 & _)
  end.
  normal_state. normal_state in Hcalls. normal_state in Hice.
  split; [repeat split |]. split; [| split; repeat split].
  rewrite Hcalls, Hice. repeat split.
Qed.

(** X8.  When the media acquisition awaited by [init] succeeds, the script keeps
    the stream as [localStream] and shows it, hands every track of the
    stream to the current connection with [addTrack], in the order of the
    stream, puts its three handlers on the connection, and sends exactly
    one message: [join] for room "1234" under a name made of "user_" and a
    random suffix.  Join becomes disabled, Leave and the two toggles
    enabled, the status reads "In Room".  The flags [isVideoEnabled] and
    [isAudioEnabled] and the buttons' muted marks are not reset here. *)
Theorem successful_join_adds_tracks_and_sends_one_join
    (s : State) (p : nat) (id : string) (fresh : list MediaStreamTrack) :
  pending_with InitAwait s p ->
  let stream :=
    {| stream_id := id;
       stream_tracks := seq (length (tracks s)) (length fresh) |} in
  exists s',
    step s (Settle p (Fulfilled (VStream id fresh))) = Some s' /\
    (localStream s' = Some stream /\
     tracks s' = tracks s ++ fresh /\
     isVideoEnabled s' = isVideoEnabled s /\
     isAudioEnabled s' = isAudioEnabled s /\
     replaced s' = replaced s /\
     promises s' = alter (set_settled true) p (promises s)) /\
    (pc_calls (peerConnection s') =
       pc_calls (peerConnection s) ++
         ((fun t => AddTrack t stream) <$> stream_tracks stream) /\
     onicecandidate (peerConnection s') = true /\
     oniceconnectionstatechange (peerConnection s') = true /\
     ontrack (peerConnection s') = true /\
     iceConnectionState (peerConnection s')
       = iceConnectionState (peerConnection s)) /\
    (emitted s' =
       emitted s ++
         [MJoin "1234" ("user_" +:+ random_source s (random_drawn s))] /\
     random_drawn s' = S (random_drawn s)) /\
    (localVideo_srcObject (dom s') = Some stream /\
     localPlaceholder_hidden (dom s') = true /\
     joinBtn_disabled (dom s') = true /\
     leaveBtn_disabled (dom s') = false /\
     tb_disabled (toggleVideoBtn (dom s')) = false /\
     tb_disabled (toggleAudioBtn (dom s')) = false /\
     connectionStatus_className (dom s') = "connection-status connected" /\
     statusText_textContent (dom s') = "In Room" /\
     errorMsg_textContent (dom s') = errorMsg_textContent (dom s) /\
     remoteVideo_srcObject (dom s') = remoteVideo_srcObject (dom s) /\
     tb_muted (toggleVideoBtn (dom s')) = tb_muted (toggleVideoBtn (dom s)) /\
     tb_muted (toggleAudioBtn (dom s')) = tb_muted (toggleAudioBtn (dom s))).
Proof.
  intros Hp. cbv zeta. eexists. split.
  - apply (settle_pending InitAwait s p (Fulfilled (VStream id fresh))
             (stream ← receive_stream id fresh; init_resume stream));
      [exact Hp | reflexivity].
  - exact (init_resume_effect id fresh
             (set_promises (alter (set_settled true) p (promises s)) s)).
Qed.

Lemma successful_join_witness :
  exists s',
    step (exec init at_load) (Settle 0 (Fulfilled camera_and_microphone))
      = Some s' /\
    pc_calls (peerConnection s') =
      [AddTrack 0 {| stream_id := "local"; stream_tracks := [0; 1] |};
       AddTrack 1 {| stream_id := "local"; stream_tracks := [0; 1] |}] /\
    emitted s' = [MJoin "1234" "user_k3j9x"].
Proof.
  destruct (successful_join_adds_tracks_and_sends_one_join
              (exec init at_load) 0 "local"
              [ {| kind := "audio"; enabled := true; stopped := false |};
                {| kind := "video"; enabled := true; stopped := false |} ])
    as (s' & Hstep & _ & (Hcalls & _) & (Hem & _) & _).
  - eexists. reflexivity.
  - exists s'. split; [exact Hstep |]. split; [exact Hcalls | exact Hem].
Defined.

(** ** Leaving (client.js 208-241) *)

Lemma stopped_twice (o : option MediaStreamTrack) :
  set_stopped true <$> (set_stopped true <$> o) = set_stopped true <$> o.
Proof. destruct o; reflexivity. Qed.

(** Stopping the tracks [ts]: each of them is marked stopped in the store,
    every other track is as before. *)
Lemma forEach_track_stop_store (ts : list TrackRef) (s : State) :
  exists store,
    forEach ts track_stop s = (tt, set_tracks store s) /\
    length store = length (tracks s) /\
    forall t,
      store !! t =
        if decide (t ∈ ts) then set_stopped true <$> tracks s !! t
        else tracks s !! t.
Proof.
  revert s. induction ts as [|t0 ts IH]; intros s.
  - exists (tracks s). split; [destruct s; reflexivity |].
    split; [reflexivity |]. intros t.
    rewrite decide_False by apply not_elem_of_nil. reflexivity.
  - destruct (IH (set_tracks (alter (set_stopped true) t0 (tracks s)) s))
      as (store & Heq & Hlen & Hlook).
    exists store. split; [| split].
    + simpl. unfold mbind, M_bind, track_stop at 1, modify.
      rewrite Heq. reflexivity.
    + rewrite Hlen. cbn [tracks set_tracks]. apply length_alter.
    + intros t. rewrite Hlook. cbn [tracks set_tracks].
      destruct (decide (t0 = t)) as [<- | Hne].
      * rewrite list_lookup_alter_eq.
        rewrite (decide_True (P := t0 ∈ t0 :: ts)) by apply list_elem_of_here.
        case_decide; [apply stopped_twice | reflexivity].
      * rewrite list_lookup_alter_ne by exact Hne.
        destruct (decide (t ∈ ts)) as [Hin | Hnin].
        -- rewrite decide_True by (apply list_elem_of_further; exact Hin).
           reflexivity.
        -- rewrite decide_False; [reflexivity |].
           intros [Heq' | Hin]%elem_of_cons; [congruence | contradiction].
Qed.

(** X9.  [leaveRoom] stops every track of the local stream and forgets the
    stream.  The tracks of the stream are marked stopped and are otherwise
    as they were (their [enabled] flag is not touched); tracks that do not
    belong to the stream are not touched at all, and when there is no
    local stream no track is. *)
Theorem leave_stops_the_tracks_of_the_local_stream (s : State) :
  let s' := exec leaveRoom s in
  localStream s' = None /\
  length (tracks s') = length (tracks s) /\
  match localStream s with
  | Some st =>
      forall t,
        (t ∈ stream_tracks st ->
         tracks s' !! t = set_stopped true <$> tracks s !! t) /\
        (t ∉ stream_tracks st -> tracks s' !! t = tracks s !! t)
  | None => tracks s' = tracks s
  end.
Proof.
  cbv zeta.
  assert (Hnone : localStream (exec leaveRoom s) = None).
  { unfold leaveRoom, exec, mbind, M_bind, gets.
    destruct (localStream s) as [st|] eqn:Hls; [| exact Hls].
    destruct (forEach_track_stop (stream_tracks st) s) as [store ->].
    reflexivity. }
  split; [exact Hnone |].
  destruct (localStream s) as [st|] eqn:Hls.
  - assert (Hstore : exists store,
              tracks (exec leaveRoom s) = store /\
              length store = length (tracks s) /\
              forall t,
                store !! t =
                  if decide (t ∈ stream_tracks st)
                  then set_stopped true <$> tracks s !! t
                  else tracks s !! t).
    { destruct (forEach_track_stop_store (stream_tracks st) s)
        as (store & Heq & Hlen & Hlook).
      exists store. split; [| split; assumption].
      unfold leaveRoom, exec, mbind, M_bind, gets.
      rewrite Hls, Heq. reflexivity. }
    destruct Hstore as (store & -> & Hlen & Hlook).
    split; [exact Hlen |].
    intros t. rewrite Hlook. split; intros Hin.
    + rewrite decide_True by exact Hin. reflexivity.
    + rewrite decide_False by exact Hin. reflexivity.
  - assert (Hsame : tracks (exec leaveRoom s) = tracks s).
    { unfold leaveRoom, exec, mbind, M_bind, gets. rewrite Hls.
      reflexivity. }
    rewrite Hsame. split; reflexivity.
Qed.

Lemma leave_stops_tracks_witness :
  exists joined left,
    run at_load
      [ClickJoin; Settle 0 (Fulfilled camera_and_microphone);
       ClickToggleVideo] = Some joined /\
    step joined ClickLeave = Some left /\
    tracks left =
      [ {| kind := "audio"; enabled := true; stopped := true |};
        {| kind := "video"; enabled := false; stopped := true |} ] /\
    tracks left !! 1 = set_stopped true <$> tracks joined !! 1.
Proof.
  eexists; eexists. split; [vm_compute; reflexivity |].
  split; [reflexivity |]. split; [vm_compute; reflexivity |].
  match goal with
  | |- tracks (exec leaveRoom ?j) !! _ = _ =>
      pose proof (leave_stops_the_tracks_of_the_local_stream j)
        as (_ & _ & Hst)
  end.
  cbn [localStream] in Hst. apply (Hst 1).
  vm_compute. apply list_elem_of_further, list_elem_of_here.
Defined.

(** What [leaveRoom] leaves behind, apart from the tracks. *)
Lemma leaveRoom_effect (s : State) :
  let s' := exec leaveRoom s in
  (emitted s' = emitted s /\ promises s' = promises s) /\
  (peerConnection s' = new_RTCPeerConnection /\
   replaced s' = replaced s ++ [pc_received Close (peerConnection s)]) /\
  (isVideoEnabled s' = true /\ isAudioEnabled s' = true) /\
  (localVideo_srcObject (dom s') = None /\
   remoteVideo_srcObject (dom s') = None /\
   localPlaceholder_hidden (dom s') = false /\
   remotePlaceholder_hidden (dom s') = false /\
   joinBtn_disabled (dom s') = false /\
   leaveBtn_disabled (dom s') = true /\
   connectionStatus_className (dom s') = "connection-status connected" /\
   statusText_textContent (dom s') = "Connected" /\
   errorMsg_textContent (dom s') = "") /\
  (toggleVideoBtn (dom s') =
     {| tb_disabled := true; tb_muted := false;
        icon_on_display := icon_on_display (toggleVideoBtn (dom s));
        icon_off_display := icon_off_display (toggleVideoBtn (dom s)) |} /\
   toggleAudioBtn (dom s') =
     {| tb_disabled := true; tb_muted := false;
        icon_on_display := icon_on_display (toggleAudioBtn (dom s));
        icon_off_display := icon_off_display (toggleAudioBtn (dom s)) |}).
Proof.
  cbv zeta. unfold leaveRoom, exec, mbind, M_bind, gets.
  destruct (localStream s) as [st|].
  - destruct (forEach_track_stop (stream_tracks st) s) as [store ->].
    repeat split.
  - repeat split.
Qed.

(** X10.  [leaveRoom] sends nothing (the relay is not told) and cancels nothing
    (the promises still pending stay pending).  It makes a new connection
    current, one that has received no call and carries no handler, resets
    both flags to enabled, clears both video elements, shows both
    placeholders, enables Join, disables Leave and the two toggles, removes
    their muted marks, sets the status to "Connected" and clears the error
    line.  The [display] of the toggles' icons is left as it was. *)
Theorem leave_resets_flags_page_and_connection (s : State) :
  let s' := exec leaveRoom s in
  (emitted s' = emitted s /\ promises s' = promises s) /\
  (peerConnection s' = new_RTCPeerConnection /\
   replaced s' = replaced s ++ [pc_received Close (peerConnection s)]) /\
  (isVideoEnabled s' = true /\ isAudioEnabled s' = true) /\
  (localVideo_srcObject (dom s') = None /\
   remoteVideo_srcObject (dom s') = None /\
   localPlaceholder_hidden (dom s') = false /\
   remotePlaceholder_hidden (dom s') = false /\
   joinBtn_disabled (dom s') = false /\
   leaveBtn_disabled (dom s') = true /\
   connectionStatus_className (dom s') = "connection-status connected" /\
   statusText_textContent (dom s') = "Connected" /\
   errorMsg_textContent (dom s') = "") /\
  (toggleVideoBtn (dom s') =
     {| tb_disabled := true; tb_muted := false;
        icon_on_display := icon_on_display (toggleVideoBtn (dom s));
        icon_off_display := icon_off_display (toggleVideoBtn (dom s)) |} /\
   toggleAudioBtn (dom s') =
     {| tb_disabled := true; tb_muted := false;
        icon_on_display := icon_on_display (toggleAudioBtn (dom s));
        icon_off_display := icon_off_display (toggleAudioBtn (dom s)) |}).
Proof. exact (leaveRoom_effect s). Qed.

(** ** More on the toggles (client.js 244-276) *)

(** The track a toggle writes is in the store and has the toggle's kind. *)
Lemma toggled_track_lookup (k : string) (s : State) (t : TrackRef) :
  toggled_track k s = Some t ->
  exists tr, tracks s !! t = Some tr /\ kind tr = k.
Proof.
  unfold toggled_track. destruct (localStream s) as [st|]; [| discriminate].
  intros Hhd.
  assert (Hin : In t (List.filter (has_kind k (tracks s)) (stream_tracks st))).
  { destruct (List.filter _ _) as [|x l]; [discriminate |].
    injection Hhd as ->. left. reflexivity. }
  apply List.filter_In in Hin as [_ Hk]. unfold has_kind in Hk.
  destruct (tracks s !! t) as [tr|]; [| discriminate].
  exists tr. split; [reflexivity |]. apply String.eqb_eq. exact Hk.
Qed.

(** Writing [enabled] does not change which track a toggle finds. *)
Lemma has_kind_alter_enabled (k : string) (store : list MediaStreamTrack)
    (t : nat) (v : bool) (t' : nat) :
  has_kind k (alter (set_enabled v) t store) t' = has_kind k store t'.
Proof.
  unfold has_kind, TrackRef. destruct (decide (t = t')) as [<- | Hne].
  - rewrite list_lookup_alter_eq. destruct (store !! t); reflexivity.
  - rewrite list_lookup_alter_ne by exact Hne. reflexivity.
Qed.

(** What a video toggle does when the stream has a video track. *)
Lemma toggleVideo_effect (s : State) (t : TrackRef) :
  toggled_track "video" s = Some t ->
  let v := negb (isVideoEnabled s) in
  exec toggleVideo s =
    set_dom
      (set_toggleVideoBtn
         (set_icons (if v then "block" else "none")
            (if v then "none" else "block")
            (set_tb_muted (negb v) (toggleVideoBtn (dom s)))) (dom s))
      (set_tracks (alter (set_enabled v) t (tracks s))
         (set_isVideoEnabled v s)).
Proof.
  unfold toggled_track, toggleVideo. open_monad.
  destruct (localStream s) as [st|]; [| discriminate].
  intros ->. reflexivity.
Qed.

Lemma toggleAudio_effect (s : State) (t : TrackRef) :
  toggled_track "audio" s = Some t ->
  let v := negb (isAudioEnabled s) in
  exec toggleAudio s =
    set_dom
      (set_toggleAudioBtn
         (set_icons (if v then "block" else "none")
            (if v then "none" else "block")
            (set_tb_muted (negb v) (toggleAudioBtn (dom s)))) (dom s))
      (set_tracks (alter (set_enabled v) t (tracks s))
         (set_isAudioEnabled v s)).
Proof.
  unfold toggled_track, toggleAudio. open_monad.
  destruct (localStream s) as [st|]; [| discriminate].
  intros ->. reflexivity.
Qed.

(** X12.  When the local stream has no track of the toggle's kind (a stream
    without video, say), the toggle changes nothing at all: not even the
    script's own flag is flipped. *)
Theorem toggle_without_track_of_its_kind_changes_nothing (s : State) :
  (toggled_track "video" s = None ->
   toggleVideo s = (tt, s) /\ step s ClickToggleVideo = Some s) /\
  (toggled_track "audio" s = None ->
   toggleAudio s = (tt, s) /\ step s ClickToggleAudio = Some s).
Proof.
  split; intros Hnone.
  - assert (H : toggleVideo s = (tt, s)).
    { unfold toggled_track in Hnone. unfold toggleVideo. open_monad.
      destruct (localStream s) as [st|]; [| reflexivity].
      rewrite Hnone. reflexivity. }
    split; [exact H |]. unfold step, exec. rewrite H. reflexivity.
  - assert (H : toggleAudio s = (tt, s)).
    { unfold toggled_track in Hnone. unfold toggleAudio. open_monad.
      destruct (localStream s) as [st|]; [| reflexivity].
      rewrite Hnone. reflexivity. }
    split; [exact H |]. unfold step, exec. rewrite H. reflexivity.
Qed.

Lemma toggle_without_track_witness :
  exists audio_only,
    run at_load
      [ClickJoin;
       Settle 0 (Fulfilled
         (VStream "local"
            [ {| kind := "audio"; enabled := true; stopped := false |} ]))]
      = Some audio_only /\
    localStream audio_only
      = Some {| stream_id := "local"; stream_tracks := [0] |} /\
    step audio_only ClickToggleVideo = Some audio_only.
Proof.
  eexists. split; [vm_compute; reflexivity |]. split; [reflexivity |].
  match goal with
  | |- step ?j _ = _ =>
      apply (toggle_without_track_of_its_kind_changes_nothing j)
  end.
  reflexivity.
Defined.

Lemma toggled_track_after_write (k : string) (s s' : State) (t0 : nat)
    (v : bool) :
  localStream s' = localStream s ->
  tracks s' = alter (set_enabled v) t0 (tracks s) ->
  toggled_track k s' = toggled_track k s.
Proof.
  intros Hls Htr. unfold toggled_track. rewrite Hls, Htr.
  destruct (localStream s) as [st|]; [| reflexivity].
  f_equal. apply List.filter_ext. intros t'.
  apply has_kind_alter_enabled.
Qed.

(** Writing a flag twice on a track that already carried the second value
    gives the store back. *)
Lemma alter_enabled_back (store : list MediaStreamTrack) (t : nat)
    (tr : MediaStreamTrack) (v : bool) :
  store !! t = Some tr -> enabled tr = v ->
  alter (set_enabled v) t (alter (set_enabled (negb v)) t store) = store.
Proof.
  intros Hlook Hen. apply list_eq. intros i.
  destruct (decide (t = i)) as [<- | Hne].
  - rewrite !list_lookup_alter_eq, Hlook. simpl.
    destruct tr as [k e st]. simpl in Hen. subst e. reflexivity.
  - rewrite !list_lookup_alter_ne by exact Hne. reflexivity.
Qed.

Ltac toggle_twice k effect s t Ht :=
  destruct (toggled_track_lookup k s t Ht) as (tr & Hlook & _);
  pose proof (effect s t Ht) as E1; cbv zeta in E1;
  match type of E1 with
  | exec ?tg s = ?s1 =>
      assert (Ht1 : toggled_track k s1 = Some t)
        by (rewrite (toggled_track_after_write k s s1 t _ eq_refl eq_refl);
            exact Ht);
      pose proof (effect s1 t Ht1) as E2; cbv zeta in E2;
      rewrite E1, E2
  end;
  cbn;
  rewrite ?list_lookup_alter_eq, ?Hlook, ?Bool.negb_involutive; cbn;
  unfold button_shows; cbn;
  repeat match goal with |- _ /\ _ => split end;
  unfold TrackRef in *;
  rewrite ?list_lookup_alter_eq, ?Hlook, ?Bool.negb_involutive; cbn;
  try reflexivity;
  try (match goal with
       | |- context [if ?b then _ else _] => destruct b; reflexivity
       end);
  try (intros Hsync; apply (alter_enabled_back _ _ tr);
       [exact Hlook | congruence]).

(** X13.  A toggle writes the track from the script's flag: after one toggle the
    flag is flipped, and the track's [enabled] flag, the button's muted
    mark and its icons all say what the flag says, whatever they said
    before.  A second toggle restores the flag, and when the track agreed
    with the flag at the start, the track store is back as it was. *)
Theorem toggle_twice_restores_flag_and_track (s : State) (t : TrackRef) :
  (toggled_track "video" s = Some t ->
   let s1 := exec toggleVideo s in
   let s2 := exec toggleVideo s1 in
   (isVideoEnabled s1 = negb (isVideoEnabled s) /\
    enabled <$> tracks s1 !! t = Some (negb (isVideoEnabled s)) /\
    button_shows (negb (isVideoEnabled s)) (toggleVideoBtn (dom s1))) /\
   (isVideoEnabled s2 = isVideoEnabled s /\
    enabled <$> tracks s2 !! t = Some (isVideoEnabled s) /\
    button_shows (isVideoEnabled s) (toggleVideoBtn (dom s2))) /\
   (enabled <$> tracks s !! t = Some (isVideoEnabled s) ->
    tracks s2 = tracks s))
  /\
  (toggled_track "audio" s = Some t ->
   let s1 := exec toggleAudio s in
   let s2 := exec toggleAudio s1 in
   (isAudioEnabled s1 = negb (isAudioEnabled s) /\
    enabled <$> tracks s1 !! t = Some (negb (isAudioEnabled s)) /\
    button_shows (negb (isAudioEnabled s)) (toggleAudioBtn (dom s1))) /\
   (isAudioEnabled s2 = isAudioEnabled s /\
    enabled <$> tracks s2 !! t = Some (isAudioEnabled s) /\
    button_shows (isAudioEnabled s) (toggleAudioBtn (dom s2))) /\
   (enabled <$> tracks s !! t = Some (isAudioEnabled s) ->
    tracks s2 = tracks s)).
Proof.
  unfold TrackRef in t. split; intros Ht; cbv zeta.
  - toggle_twice "video" toggleVideo_effect s t Ht.
  - toggle_twice "audio" toggleAudio_effect s t Ht.
Qed.

Lemma toggle_twice_witness :
  tracks (exec toggleVideo (exec toggleVideo after_join)) = tracks after_join /\
  isVideoEnabled (exec toggleVideo after_join) = false /\
  button_shows false (toggleVideoBtn (dom (exec toggleVideo after_join))).
Proof.
  destruct (toggle_twice_restores_flag_and_track after_join 1)
    as [Hvideo _].
  destruct (Hvideo eq_refl) as ((Hflag & _ & Hbtn) & _ & Hback).
  split; [apply Hback; reflexivity |]. split; [exact Hflag | exact Hbtn].
Defined.

(** X11.  After the camera was switched off and the user has left, the script's
    flag says enabled again and the muted mark is gone, but the icons of
    the video button still show "off": [leaveRoom] resets the flag and the
    mark and not the icons. *)
Theorem icons_still_show_off_after_leave (s : State) (t : TrackRef) :
  toggled_track "video" s = Some t ->
  isVideoEnabled s = true ->
  let s' := exec leaveRoom (exec toggleVideo s) in
  isVideoEnabled s' = true /\
  tb_muted (toggleVideoBtn (dom s')) = false /\
  icon_on_display (toggleVideoBtn (dom s')) = "none" /\
  icon_off_display (toggleVideoBtn (dom s')) = "block" /\
  ~ button_shows (isVideoEnabled s') (toggleVideoBtn (dom s')).
Proof.
  intros Ht Hon. cbv zeta.
  destruct (leaveRoom_effect (exec toggleVideo s))
    as (_ & _ & (Hflag & _) & _ & (Hbtn & _)).
  rewrite Hflag, Hbtn.
  rewrite (toggleVideo_effect s t Ht). cbv zeta. rewrite Hon.
  repeat split. intros (_ & Hicon & _). discriminate Hicon.
Qed.

Lemma icons_still_show_off_witness :
  isVideoEnabled (exec leaveRoom (exec toggleVideo after_join)) = true /\
  icon_on_display
    (toggleVideoBtn (dom (exec leaveRoom (exec toggleVideo after_join))))
    = "none".
Proof.
  destruct (icons_still_show_off_after_leave after_join 1 eq_refl eq_refl)
    as (Hflag & _ & Hicon & _).
  split; [exact Hflag | exact Hicon].
Defined.

Ltac handlers_side :=
  idtac;
  match goal with
  | H : current_has_no_handlers _ |- _ => exact H
  end.

Ltac keeps_no_handlers :=
  match goal with
  | |- current_has_no_handlers (exec ?h ?t) =>
      let Hk := fresh "Hk" in
      assert (Hk : keeps current_has_no_handlers h)
        by (keeps_with handlers_side);
      apply (Hk t)
  end.

(** As long as no media acquisition succeeds, no step puts a handler on the
    current connection. *)
Lemma step_keeps_no_handlers (s s' : State) (e : Event) :
  step s e = Some s' ->
  no_successful_join e ->
  no_handlers (peerConnection s) -> no_handlers (peerConnection s').
Proof.
  change (step s e = Some s' -> no_successful_join e ->
          current_has_no_handlers s -> current_has_no_handlers s').
  destruct e; unfold step; try (intros [= <-] _ Hs).
  1-9, 11-12: keeps_no_handlers; exact Hs.
  - unfold current_has_no_handlers.
    destruct (leaveRoom_transport s) as (Hpc & _).
    rewrite Hpc. repeat split.
  - destruct (promises s !! p) as [[og r st]|]; [| discriminate].
    cbn [settled attached]. destruct st; [discriminate |].
    destruct r, o as [[| sdp | id fresh]|err]; cbn [reaction];
      try discriminate; intros [= <-] Hjoin Hs;
      try (destruct Hjoin);
      keeps_no_handlers; exact Hs.
  - destruct (pc_at s target) as [pc|]; [| discriminate].
    intros [= <-] _ Hs. destruct (onicecandidate pc); [| exact Hs].
    keeps_no_handlers; exact Hs.
  - destruct (pc_at s target) as [pc|]; [| discriminate].
    intros [= <-] _ Hs.
    assert (Hb : current_has_no_handlers (browser_sets_ice_state target st s)).
    { unfold browser_sets_ice_state.
      destruct (decide (target = current_pc_id s)); exact Hs. }
    destruct (oniceconnectionstatechange pc); [| exact Hb].
    keeps_no_handlers; exact Hb.
  - destruct (pc_at s target) as [pc|]; [| discriminate].
    intros [= <-] _ Hs. destruct (ontrack pc); [| exact Hs].
    keeps_no_handlers; exact Hs.
Qed.

Lemma run_keeps_no_handlers (es : list Event) (s s' : State) :
  run s es = Some s' ->
  Forall no_successful_join es ->
  no_handlers (peerConnection s) -> no_handlers (peerConnection s').
Proof.
  revert s. induction es as [|e es IH]; intros s; simpl.
  - intros [= <-] _ Hs. exact Hs.
  - destruct (step s e) as [s1|] eqn:Hstep; [| discriminate].
    intros Hrun Hall Hs. apply Forall_cons in Hall as [He Hes].
    apply (IH s1 Hrun Hes). apply (step_keeps_no_handlers s s1 e Hstep He Hs).
Qed.

(** X15.  Until the next successful join the connection [leaveRoom] has made
    carries no handler: after [leaveRoom] and any events among which no
    media acquisition succeeds, the current connection has none of the
    three handlers, so its candidates are not sent, its tracks are not
    shown and its connectivity changes are not reported.  These events
    leave the state as it is, but for the connection's own
    [iceConnectionState]. *)
Theorem connection_made_by_leave_reports_nothing
    (s0 : State) (es : list Event) (s : State) (c : option Candidate)
    (streams : list MediaStream) (st : string) :
  run (exec leaveRoom s0) es = Some s ->
  Forall no_successful_join es ->
  no_handlers (peerConnection s) /\
  step s (IceCandidateEv (current_pc_id s) c) = Some s /\
  step s (TrackEv (current_pc_id s) streams) = Some s /\
  exists s',
    step s (IceConnectionStateChangeEv (current_pc_id s) st) = Some s' /\
    iceConnectionState (peerConnection s') = st /\
    dom s' = dom s /\
    emitted s' = emitted s /\
    console s' = console s.
Proof.
  intros Hrun Hall.
  assert (Hnone : no_handlers (peerConnection s)).
  { apply (run_keeps_no_handlers es (exec leaveRoom s0) s Hrun Hall).
    destruct (leaveRoom_transport s0) as (Hpc & _). rewrite Hpc.
    repeat split. }
  split; [exact Hnone |]. destruct Hnone as (H1 & H2 & H3).
  unfold step. rewrite !current_pc_at, H1, H2, H3.
  split; [reflexivity |]. split; [reflexivity |].
  eexists. split; [reflexivity |].
  unfold browser_sets_ice_state. rewrite decide_True by reflexivity.
  repeat split.
Qed.

Lemma connection_made_by_leave_witness :
  exists s,
    run (exec leaveRoom after_join)
      [GetOffer offer1; Settle 1 (Fulfilled VUndefined);
       RoomUsers ["peer"]; ClickJoin; Settle 4 (Rejected not_allowed)]
      = Some s /\
    no_handlers (peerConnection s) /\
    step s (IceCandidateEv (current_pc_id s) (Some "candidate:a")) = Some s.
Proof.
  eexists. split; [vm_compute; reflexivity |].
  match goal with
  | |- no_handlers (peerConnection ?t) /\ _ =>
      destruct (connection_made_by_leave_reports_nothing after_join
                  [GetOffer offer1; Settle 1 (Fulfilled VUndefined);
                   RoomUsers ["peer"]; ClickJoin;
                   Settle 4 (Rejected not_allowed)]
                  t (Some "candidate:a") [] "checking")
        as (Hnone & Hcand & _)
  end.
  - vm_compute. reflexivity.
  - repeat constructor.
  - split; [exact Hnone | exact Hcand].
Defined.

(** ** What is sent, and when *)

(** X14.  A step of the machine sends at most one message, and only in four
    situations: [join] (room "1234", name "user_" and a random suffix) when
    the media acquisition of [init] succeeds; an offer when a [createOffer]
    resolves; an answer when the [createAnswer] of the answer chain
    resolves; a candidate when a connection carrying [init]'s handler
    produces a non-null candidate.  Every other step, leaving and toggling
    among them, sends nothing. *)
Theorem every_step_sends_at_most_one_message (s s' : State) (e : Event) :
  step s e = Some s' ->
  emitted s' = emitted s \/
  (exists p id fresh,
     e = Settle p (Fulfilled (VStream id fresh)) /\
     pending_with InitAwait s p /\
     emitted s' =
       emitted s ++
         [MJoin "1234" ("user_" +:+ random_source s (random_drawn s))]) \/
  (exists p sdp,
     e = Settle p (Fulfilled (VDescription sdp)) /\
     pending_with OfferChain s p /\
     emitted s' = emitted s ++ [MOffer sdp]) \/
  (exists p sdp,
     e = Settle p (Fulfilled (VDescription sdp)) /\
     pending_with AnswerChainCreated s p /\
     emitted s' = emitted s ++ [MAnswer sdp]) \/
  (exists target c pc,
     e = IceCandidateEv target (Some c) /\
     pc_at s target = Some pc /\ onicecandidate pc = true /\
     emitted s' = emitted s ++ [MCandidate c]).
Proof.
  destruct e; unfold step; try (intros [= <-]).
  1-12: left; apply exec_preserves; frame_handler.
  - destruct (promises s !! p) as [[og r st]|] eqn:Hp; [| discriminate].
    cbn [settled attached]. destruct st; [discriminate |].
    destruct r, o as [[| sdp | id fresh]|err]; cbn [reaction];
      try discriminate; intros [= <-].
    + right; right; left. exists p, sdp.
      split; [reflexivity |]. split; [exists og; exact Hp | reflexivity].
    + left. reflexivity.
    + left. reflexivity.
    + left. reflexivity.
    + right; right; right; left. exists p, sdp.
      split; [reflexivity |]. split; [exists og; exact Hp | reflexivity].
    + left. reflexivity.
    + left. reflexivity.
    + left. reflexivity.
    + right; left. exists p, id, fresh.
      split; [reflexivity |]. split; [exists og; exact Hp |].
      apply (init_resume_effect id fresh
               (set_promises (alter (set_settled true) p (promises s)) s)).
    + left. etrans; [apply exec_preserves; frame_handler | reflexivity].
    + left. reflexivity.
    + left. reflexivity.
  - destruct (pc_at s target) as [pc|] eqn:Hpc; [| discriminate].
    intros [= <-].
    destruct (onicecandidate pc) eqn:Hon; [| left; reflexivity].
    destruct candidate as [c|]; [| left; reflexivity].
    right; right; right; right. exists target, c, pc. repeat split; assumption.
  - destruct (pc_at s target) as [pc|]; [| discriminate].
    intros [= <-]. left.
    assert (Hset : emitted (browser_sets_ice_state target st s) = emitted s).
    { unfold browser_sets_ice_state.
      destruct (decide (target = current_pc_id s)); reflexivity. }
    destruct (oniceconnectionstatechange pc); [| exact Hset].
    rewrite <- Hset. apply exec_preserves. frame_handler.
  - destruct (pc_at s target) as [pc|]; [| discriminate].
    intros [= <-]. left.
    destruct (ontrack pc); [| reflexivity].
    apply exec_preserves. frame_handler.
Qed.

Lemma every_step_sends_witness :
  exists s',
    step after_join ClickLeave = Some s' /\
    emitted s' = [MJoin "1234" "user_k3j9x"].
Proof.
  eexists. split; [reflexivity |].
  destruct (every_step_sends_at_most_one_message after_join _ ClickLeave
              eq_refl)
    as [Hsame | [(p & id & fresh & [=] & _) | [(p & sdp & [=] & _)
       | [(p & sdp & [=] & _) | (target & c & pc & [=] & _)]]]].
  exact Hsame.
Defined.

(** ** Offering (client.js 60-65, 72-75, 92-104) *)

(** X16.  Told of a peer in the room, and when nothing fails, the script calls on
    the current connection, in this order, [createOffer] asking to receive
    audio and video, [setLocalDescription] with the offer created and, once
    the answer has arrived, [setRemoteDescription] with the answer; exactly
    one message is sent, the offer.  The page is not touched. *)
Theorem peer_in_room_is_offered_in_three_calls
    (s : State) (member : string) (others : list string)
    (offerSdp answerSdp : Sdp) :
  let n := length (promises s) in
  exists s',
    run s [RoomUsers (member :: others);
           Settle n (Fulfilled (VDescription offerSdp));
           GetAnswer answerSdp] = Some s' /\
    pc_calls (peerConnection s') =
      pc_calls (peerConnection s) ++
        [CreateOffer true true; SetLocalDescription offerSdp;
         SetRemoteDescription answerSdp] /\
    emitted s' = emitted s ++ [MOffer offerSdp] /\
    dom s' = dom s /\
    replaced s' = replaced s /\
    localStream s' = localStream s.
Proof.
  cbv zeta.
  set (s1 := exec (on_room_users (member :: others)) s).
  assert (H1 : pending_with OfferChain s1 (length (promises s))).
  { eexists. unfold s1.
    change (promises (exec (on_room_users (member :: others)) s))
      with (promises s ++
              [{| origin := ByCall (CreateOffer true true);
                  attached := OfferChain; settled := false |}]).
    apply list_lookup_middle. reflexivity. }
  eexists. split.
  - cbn [run].
    change (step s (RoomUsers (member :: others))) with (Some s1). cbn iota.
    rewrite (settle_pending OfferChain s1 _
               (Fulfilled (VDescription offerSdp))
               (createOffer_then offerSdp) H1 eq_refl).
    reflexivity.
  - unfold s1. repeat split.
    change (pc_calls (peerConnection s) ++
              [CreateOffer true true; SetLocalDescription offerSdp;
               SetRemoteDescription answerSdp])
      with (pc_calls (peerConnection s) ++
              [CreateOffer true true] ++ [SetLocalDescription offerSdp] ++
              [SetRemoteDescription answerSdp]).
    rewrite !app_assoc. reflexivity.
Qed.

(** ** The page and the local stream *)

Lemma leaveRoom_localStream (s : State) :
  localStream (exec leaveRoom s) = None.
Proof.
  unfold leaveRoom, exec, mbind, M_bind, gets.
  destruct (localStream s) as [st|] eqn:Hls; [| exact Hls].
  destruct (forEach_track_stop (stream_tracks st) s) as [store ->].
  reflexivity.
Qed.

Ltac page_side :=
  idtac;
  match goal with
  | H : page_matches_stream _ |- _ => exact H
  end.

Lemma script_keeps_page_matches_stream (h : M unit) :
  script_code h -> keeps page_matches_stream h.
Proof.
  destruct 1;
    lazymatch goal with
    | |- keeps _ leaveRoom => idtac
    | |- keeps _ (_ ≫= _) => idtac
    | _ => solve [keeps_with page_side]
    end.
  - intros s _.
    destruct (leaveRoom_effect s)
      as (_ & _ & _ & (Hv & _ & Hp & _ & Hj & Hl & _) & (Htv & Hta)).
    pose proof (leaveRoom_localStream s) as Hls. unfold exec in *.
    unfold page_matches_stream. rewrite Hls, Hv, Hp, Hj, Hl, Htv, Hta.
    repeat split.
  - intros s _.
    destruct (init_resume_effect id fresh s)
      as ((Hls & _) & _ & _ & (Hv & Hp & Hj & Hl & Htv & Hta & _)).
    unfold exec in *.
    unfold page_matches_stream. rewrite Hls, Hv, Hp, Hj, Hl, Htv, Hta.
    repeat split.
Qed.

(** X17.  On a page loaded with Join enabled, Leave and the toggles disabled and
    the local video empty, the buttons and the local video element always
    say whether the script holds a local stream: Leave and the toggles are
    enabled, Join disabled and the stream shown exactly when [localStream]
    is set. *)
Theorem buttons_follow_the_local_stream
    (d : Dom) (rnd : nat -> string) (s : State) :
  page_matches_stream (page_load d rnd) ->
  reachable d rnd s -> page_matches_stream s.
Proof.
  intros Hload. apply reachable_invariant.
  - exact Hload.
  - apply script_keeps_page_matches_stream.
  - intros s1 s0 [| p | target st] H; try exact H.
    unfold browser_sets_ice_state.
    destruct (decide (target = current_pc_id s1)); exact H.
Qed.

Lemma buttons_follow_witness :
  page_matches_stream at_load /\
  exists s,
    run at_load
      [ClickJoin; Settle 0 (Fulfilled camera_and_microphone);
       ClickToggleAudio; ClickLeave; ClickJoin] = Some s /\
    page_matches_stream s.
Proof.
  assert (Hload : page_matches_stream at_load) by (repeat split).
  split; [exact Hload |].
  eexists. split; [vm_compute; reflexivity |].
  apply (buttons_follow_the_local_stream a_page (fun _ => "k3j9x"));
    [exact Hload |].
  apply (run_reachable _ _
           [ClickJoin; Settle 0 (Fulfilled camera_and_microphone);
            ClickToggleAudio; ClickLeave; ClickJoin]
           (page_load a_page (fun _ => "k3j9x")));
    [apply reach_load | vm_compute; reflexivity].
Defined.
